(** * useDomCanvasEvents: pinch and wheel gesture synthesis

    A shallow embedding of
    [packages/editor/src/lib/hooks/useDomCanvasEvents.ts]: the closure state
    of the hook, its four pointer/wheel handlers and the deferred
    [pinch_end] callback, followed by the properties of the gesture
    classifier.

    JavaScript numbers are IEEE 754 binary64 values, modelled by Rocq's
    primitive floats; [>] is [ltb] with swapped arguments and [===] on
    numbers is [eqb]. *)

From Stdlib Require String.
From Stdlib Require Import Floats ZArith List Bool Lia.
Import String.StringSyntax.
Delimit Scope string_scope with string.
Import ListNotations.

Local Open Scope float_scope.

(** ** JavaScript [Map] keyed by pointer id

    A [Map] iterates in insertion order and [set] on a present key keeps the
    key's position, so the map is an association list without duplicate
    keys. *)
Module JsMap.

Definition t (V : Type) : Type := list (Z * V).

Definition empty {V : Type} : t V := [].

Fixpoint has {V : Type} (k : Z) (m : t V) : bool :=
  match m with
  | [] => false
  | (k', _) :: m' => if Z.eqb k k' then true else has k m'
  end.

Fixpoint set {V : Type} (k : Z) (v : V) (m : t V) : t V :=
  match m with
  | [] => [(k, v)]
  | (k', v') :: m' =>
      if Z.eqb k k' then (k', v) :: m' else (k', v') :: set k v m'
  end.

Fixpoint delete {V : Type} (k : Z) (m : t V) : t V :=
  match m with
  | [] => []
  | (k', v') :: m' =>
      if Z.eqb k k' then m' else (k', v') :: delete k m'
  end.

Fixpoint get {V : Type} (k : Z) (m : t V) : option V :=
  match m with
  | [] => None
  | (k', v') :: m' => if Z.eqb k k' then Some v' else get k m'
  end.

Definition size {V : Type} (m : t V) : nat := length m.

Definition values {V : Type} (m : t V) : list V := map snd m.

Definition keys {V : Type} (m : t V) : list Z := map fst m.

End JsMap.

(** ** Events delivered by the browser *)

(** The fields of [MouseEvent] that the handlers read; [PointerEvent] and
    [WheelEvent] both extend it. *)
Record MouseEvent : Type := {
  clientX : float;
  clientY : float;
  shiftKey : bool;
  altKey : bool;
  ctrlKey : bool;
  metaKey : bool
}.

Record PointerEvent : Type := {
  pointerId : Z;
  pointerMouse :> MouseEvent
}.

Record WheelEvent : Type := {
  deltaX : float;
  deltaY : float;
  deltaZ : float;
  deltaMode : Z;
  wheelMouse :> MouseEvent
}.

(** ** Vectors

    [VecLike] is the shape [{ x, y, z? }]: object literals [{ x, y }] have no
    [z], [new Vec()] is [(0, 0, 1)]. *)
Record VecLike : Type := {
  x : float;
  y : float;
  z : option float
}.

Definition newVec : VecLike := {| x := 0; y := 0; z := Some 1 |}.

Definition newVecXY (px py : float) : VecLike :=
  {| x := px; y := py; z := Some 1 |}.

(** The assignments [v.x = cx; v.y = cy] on a [Vec] object. *)
Definition assignXY (v : VecLike) (cx cy : float) : VecLike :=
  {| x := cx; y := cy; z := z v |}.

(** ** Events handed to [editor.dispatch] *)

Inductive PinchName : Type := pinch_start | pinch | pinch_end.

Module TLPinchEventInfo.
Record t : Type := {
  name : PinchName;
  point : VecLike;
  delta : VecLike;
  shiftKey : bool;
  altKey : bool;
  ctrlKey : bool;
  metaKey : bool;
  accelKey : bool
}.
End TLPinchEventInfo.

Module TLWheelEventInfo.
Record t : Type := {
  delta : VecLike;
  point : VecLike;
  shiftKey : bool;
  altKey : bool;
  ctrlKey : bool;
  metaKey : bool;
  accelKey : bool
}.
End TLWheelEventInfo.

Inductive TLEventInfo : Type :=
| PinchInfo (info : TLPinchEventInfo.t)
| WheelInfo (info : TLWheelEventInfo.t).

(** ** What the hook imports and does not define

    [Vec.Dist], [isAccelKey], [normalizeWheel], [Box.containsPoint] and the
    engine's exponentiation operator [**] are not part of the file;
    [TLShapeId], [Shape] and [Box] are the editor's types. They are taken as
    given. *)
Class Host : Type := {
  TLShapeId : Type;
  Shape : Type;
  Box : Type;
  pow : float -> float -> float;
  Vec_Dist : VecLike -> VecLike -> float;
  isAccelKey : MouseEvent -> bool;
  normalizeWheel : WheelEvent -> VecLike;
  containsPoint : Box -> VecLike -> bool
}.

(** The editor state the handlers query; it is read, never written. *)
Record Editor `{Host} : Type := {
  getZoomLevel : float;
  zoomSpeed : float;
  isFocused : bool;
  getEditingShapeId : option TLShapeId;
  getShape : TLShapeId -> option Shape;
  canScroll : Shape -> bool;
  getShapePageBounds : TLShapeId -> option Box;
  currentPagePoint : VecLike
}.

(** ** Closure state of the hook *)

Inductive PinchState : Type := NotSure | Zooming | Panning.

Record State : Type := {
  activePointers : JsMap.t PointerEvent;
  pinchState : PinchState;
  initDistanceBetweenFingers : float;
  initZoom : float;
  currDistanceBetweenFingers : float;
  initPointBetweenFingers : VecLike;
  prevPointBetweenFingers : VecLike
}.

Definition initialState : State := {|
  activePointers := JsMap.empty;
  pinchState := NotSure;
  initDistanceBetweenFingers := 1;
  initZoom := 1;
  currDistanceBetweenFingers := 0;
  initPointBetweenFingers := newVec;
  prevPointBetweenFingers := newVec
|}.

Definition with_activePointers (m : JsMap.t PointerEvent) (s : State) : State :=
  {| activePointers := m;
     pinchState := pinchState s;
     initDistanceBetweenFingers := initDistanceBetweenFingers s;
     initZoom := initZoom s;
     currDistanceBetweenFingers := currDistanceBetweenFingers s;
     initPointBetweenFingers := initPointBetweenFingers s;
     prevPointBetweenFingers := prevPointBetweenFingers s |}.

Definition with_pinchState (p : PinchState) (s : State) : State :=
  {| activePointers := activePointers s;
     pinchState := p;
     initDistanceBetweenFingers := initDistanceBetweenFingers s;
     initZoom := initZoom s;
     currDistanceBetweenFingers := currDistanceBetweenFingers s;
     initPointBetweenFingers := initPointBetweenFingers s;
     prevPointBetweenFingers := prevPointBetweenFingers s |}.

(** The callback handed to [requestAnimationFrame] by [onPointerUp]. It
    closes over the constant [finalZoom] and the event [e]; the vector
    [prevPointBetweenFingers] is the hook's shared object and is read when
    the callback runs. *)
Record PinchEndCallback : Type := {
  finalZoom : float;
  releaseEvent : PointerEvent
}.

(** What a handler does to the outside world, in program order. *)
Inductive Effect : Type :=
| Dispatch (info : TLEventInfo)
| RequestAnimationFrame (cb : PinchEndCallback)
| PreventDefault
| StopEventPropagation.

Definition getPointerDistance (p1 p2 : PointerEvent) : float :=
  let dx := clientX p1 - clientX p2 in
  let dy := clientY p1 - clientY p2 in
  sqrt (dx * dx + dy * dy).

Definition getPointerCenter (p1 p2 : PointerEvent) : VecLike :=
  {| x := (clientX p1 + clientX p2) / 2;
     y := (clientY p1 + clientY p2) / 2;
     z := None |}.

(** The writes of [onPointerMove] that precede the classification: the
    stored event, [currDistanceBetweenFingers] and the centre kept in
    [prevPointBetweenFingers]. *)
Definition recordGeometry (pointers : JsMap.t PointerEvent)
  (p1 p2 : PointerEvent) (s : State) : State :=
  let center := getPointerCenter p1 p2 in
  {| activePointers := pointers;
     pinchState := pinchState s;
     initDistanceBetweenFingers := initDistanceBetweenFingers s;
     initZoom := initZoom s;
     currDistanceBetweenFingers := getPointerDistance p1 p2;
     initPointBetweenFingers := initPointBetweenFingers s;
     prevPointBetweenFingers :=
       assignXY (prevPointBetweenFingers s) (x center) (y center) |}.

Section Hook.

Context `{Host}.

(** The modifier fields shared by every dispatched event. *)
Definition pinchInfo (n : PinchName) (pt dl : VecLike) (e : MouseEvent)
  : TLPinchEventInfo.t :=
  {| TLPinchEventInfo.name := n;
     TLPinchEventInfo.point := pt;
     TLPinchEventInfo.delta := dl;
     TLPinchEventInfo.shiftKey := shiftKey e;
     TLPinchEventInfo.altKey := altKey e;
     TLPinchEventInfo.ctrlKey := metaKey e || ctrlKey e;
     TLPinchEventInfo.metaKey := metaKey e;
     TLPinchEventInfo.accelKey := isAccelKey e |}.

Definition updatePinchState (s : State) : State :=
  match pinchState s with
  | Zooming => s
  | mode =>
      let touchDistance :=
        abs (currDistanceBetweenFingers s - initDistanceBetweenFingers s) in
      let originDistance :=
        Vec_Dist (initPointBetweenFingers s) (prevPointBetweenFingers s) in
      match mode with
      | NotSure =>
          if 24 <? touchDistance then with_pinchState Zooming s
          else if 16 <? originDistance then with_pinchState Panning s
          else s
      | Panning =>
          if 64 <? touchDistance then with_pinchState Zooming s
          else s
      | Zooming => s
      end
  end.

Definition onPointerDown (editor : Editor) (e : PointerEvent) (s : State)
  : State * list Effect :=
  let pointers := JsMap.set (pointerId e) e (activePointers s) in
  if Nat.eqb (JsMap.size pointers) 2 then
    match JsMap.values pointers with
    | p1 :: p2 :: _ =>
        let center := getPointerCenter p1 p2 in
        ({| activePointers := pointers;
            pinchState := NotSure;
            initDistanceBetweenFingers := getPointerDistance p1 p2;
            initZoom := getZoomLevel editor;
            currDistanceBetweenFingers := currDistanceBetweenFingers s;
            initPointBetweenFingers :=
              assignXY (initPointBetweenFingers s) (x center) (y center);
            prevPointBetweenFingers :=
              assignXY (prevPointBetweenFingers s) (x center) (y center) |},
         [Dispatch (PinchInfo
            (pinchInfo pinch_start
               {| x := x center; y := y center; z := Some (getZoomLevel editor) |}
               {| x := 0; y := 0; z := None |}
               e))])
    | _ => (with_activePointers pointers s, [])
    end
  else (with_activePointers pointers s, []).

Definition onPointerMove (editor : Editor) (e : PointerEvent) (s : State)
  : State * list Effect :=
  if negb (JsMap.has (pointerId e) (activePointers s)) then (s, [])
  else
    let pointers := JsMap.set (pointerId e) e (activePointers s) in
    if Nat.eqb (JsMap.size pointers) 2 then
      match JsMap.values pointers with
      | p1 :: p2 :: _ =>
          let center := getPointerCenter p1 p2 in
          let dx := x center - x (prevPointBetweenFingers s) in
          let dy := y center - y (prevPointBetweenFingers s) in
          let s' := updatePinchState (recordGeometry pointers p1 p2 s) in
          match pinchState s' with
          | Zooming =>
              let scale :=
                currDistanceBetweenFingers s' / initDistanceBetweenFingers s' in
              let currZoom := initZoom s' * pow scale (zoomSpeed editor) in
              (s', [Dispatch (PinchInfo
                      (pinchInfo pinch
                         {| x := x center; y := y center; z := Some currZoom |}
                         {| x := dx; y := dy; z := None |}
                         e))])
          | Panning =>
              (s', [Dispatch (PinchInfo
                      (pinchInfo pinch
                         {| x := x center; y := y center;
                            z := Some (initZoom s') |}
                         {| x := dx; y := dy; z := None |}
                         e))])
          | NotSure => (s', [])
          end
      | _ => (with_activePointers pointers s, [])
      end
    else (with_activePointers pointers s, []).

Definition onPointerUp (editor : Editor) (e : PointerEvent) (s : State)
  : State * list Effect :=
  if Nat.eqb (JsMap.size (activePointers s)) 2 then
    let scale :=
      currDistanceBetweenFingers s / initDistanceBetweenFingers s in
    let finalZoom := initZoom s * pow scale (zoomSpeed editor) in
    (with_activePointers
       (JsMap.delete (pointerId e) (activePointers s))
       (with_pinchState NotSure s),
     [RequestAnimationFrame
        {| finalZoom := finalZoom; releaseEvent := e |}])
  else
    (with_activePointers (JsMap.delete (pointerId e) (activePointers s)) s,
     []).

(** The body of the deferred callback, run against the hook state of the
    moment the frame fires. *)
Definition runPinchEnd (cb : PinchEndCallback) (s : State) : Effect :=
  Dispatch (PinchInfo
    (pinchInfo pinch_end
       {| x := x (prevPointBetweenFingers s);
          y := y (prevPointBetweenFingers s);
          z := Some (finalZoom cb) |}
       {| x := x (prevPointBetweenFingers s);
          y := y (prevPointBetweenFingers s);
          z := None |}
       (releaseEvent cb))).

(** The scroll exemption of [onWheel]: the nested tests on the editing
    shape. *)
Definition scrollsEditingShape (editor : Editor) : bool :=
  match getEditingShapeId editor with
  | Some editingShapeId =>
      match getShape editor editingShapeId with
      | Some shape =>
          if canScroll editor shape then
            match getShapePageBounds editor editingShapeId with
            | Some bounds => containsPoint bounds (currentPagePoint editor)
            | None => false
            end
          else false
      | None => false
      end
  | None => false
  end.

Definition onWheel (editor : Editor) (e : WheelEvent) (s : State)
  : State * list Effect :=
  if negb (isFocused editor) then (s, [])
  else
    let s' := with_pinchState NotSure s in
    if scrollsEditingShape editor then (s', [])
    else
      let delta := normalizeWheel e in
      if (x delta =? 0) && (y delta =? 0) then
        (s', [PreventDefault; StopEventPropagation])
      else
        (s', [PreventDefault; StopEventPropagation;
              Dispatch (WheelInfo
                {| TLWheelEventInfo.delta := delta;
                   TLWheelEventInfo.point := newVecXY (clientX e) (clientY e);
                   TLWheelEventInfo.shiftKey := shiftKey e;
                   TLWheelEventInfo.altKey := altKey e;
                   TLWheelEventInfo.ctrlKey := metaKey e || ctrlKey e;
                   TLWheelEventInfo.metaKey := metaKey e;
                   TLWheelEventInfo.accelKey := isAccelKey e |})]).

(** ** The hook as a transition system

    The registered listeners ([pointercancel] shares [onPointerUp]) and the
    animation-frame tick that runs the pending callbacks. *)
Inductive DomEvent : Type :=
| PointerDownEv (e : PointerEvent)
| PointerMoveEv (e : PointerEvent)
| PointerUpEv (e : PointerEvent)
| PointerCancelEv (e : PointerEvent)
| WheelEv (e : WheelEvent)
| AnimationFrameEv.

Record World : Type := {
  hook : State;
  pendingFrames : list PinchEndCallback
}.

Definition initialWorld : World :=
  {| hook := initialState; pendingFrames := [] |}.

Fixpoint scheduled (effects : list Effect) : list PinchEndCallback :=
  match effects with
  | [] => []
  | RequestAnimationFrame cb :: rest => cb :: scheduled rest
  | _ :: rest => scheduled rest
  end.


Definition handle (editor : Editor) (ev : DomEvent) (s : State)
  : State * list Effect :=
  match ev with
  | PointerDownEv e => onPointerDown editor e s
  | PointerMoveEv e => onPointerMove editor e s
  | PointerUpEv e => onPointerUp editor e s
  | PointerCancelEv e => onPointerUp editor e s
  | WheelEv e => onWheel editor e s
  | AnimationFrameEv => (s, [])
  end.

(** One event: the effects of the listener; on a frame tick the pending
    callbacks run in the order they were requested. *)
Definition step (editor : Editor) (ev : DomEvent) (w : World)
  : World * list Effect :=
  match ev with
  | AnimationFrameEv =>
      ({| hook := hook w; pendingFrames := [] |},
       map (fun cb => runPinchEnd cb (hook w)) (pendingFrames w))
  | _ =>
      let '(s', effects) := handle editor ev (hook w) in
      ({| hook := s'; pendingFrames := pendingFrames w ++ scheduled effects |},
       effects)
  end.

Fixpoint run (trace : list (Editor * DomEvent)) (w : World)
  : World * list Effect :=
  match trace with
  | [] => (w, [])
  | (editor, ev) :: rest =>
      let '(w1, effects1) := step editor ev w in
      let '(w2, effects2) := run rest w1 in
      (w2, effects1 ++ effects2)
  end.

(** The classifier mode after each event of a trace. *)
Fixpoint modesAlong (trace : list (Editor * DomEvent)) (w : World)
  : list PinchState :=
  match trace with
  | [] => []
  | (editor, ev) :: rest =>
      let w1 := fst (step editor ev w) in
      pinchState (hook w1) :: modesAlong rest w1
  end.

(** Events that neither start nor end a session nor interrupt it: moves and
    frame ticks. *)
Definition continuesSession (ev : DomEvent) : bool :=
  match ev with
  | PointerMoveEv _ | AnimationFrameEv => true
  | _ => false
  end.

Definition isPointerMove (ev : DomEvent) : bool :=
  match ev with
  | PointerMoveEv _ => true
  | _ => false
  end.

(** [ev] is a [pointerdown] of pointer [k]. *)
Definition startsPointer (k : Z) (ev : DomEvent) : bool :=
  match ev with
  | PointerDownEv e => Z.eqb (pointerId e) k
  | _ => false
  end.

(** [ev] is an update step in state [s]: a [pointermove] of a tracked
    pointer while two pointers are down. These are the only events that
    write [currDistanceBetweenFingers]. *)
Definition isSessionUpdate (ev : DomEvent) (s : State) : bool :=
  match ev with
  | PointerMoveEv e =>
      JsMap.has (pointerId e) (activePointers s)
      && Nat.eqb (JsMap.size (activePointers s)) 2
  | _ => false
  end.

(** No event of the trace, run from [w], is an update step. *)
Fixpoint noSessionUpdate (trace : list (Editor * DomEvent)) (w : World)
  : bool :=
  match trace with
  | [] => true
  | (editor, ev) :: rest =>
      negb (isSessionUpdate ev (hook w))
      && noSessionUpdate rest (fst (step editor ev w))
  end.

End Hook.

(** ** The scroll exemption in the specification's words

    The shape being edited declares itself scrollable and its page bounds
    contain the current input point. *)
Definition editingShapeScrollsUnderPoint `{Host} (editor : Editor) : Prop :=
  exists (id : TLShapeId) (shape : Shape) (bounds : Box),
    getEditingShapeId editor = Some id /\
    getShape editor id = Some shape /\
    canScroll editor shape = true /\
    getShapePageBounds editor id = Some bounds /\
    containsPoint bounds (currentPagePoint editor) = true.

(** ** A concrete host, to run the handlers on inputs

    Stand-ins for the imported functions. [powModel] covers the exponents
    the examples use, with the values ECMAScript gives there; [distModel] is
    the Euclidean distance; [accelModel] is the non-Apple reading of
    [isAccelKey]; [wheelModel] negates the two raw axes; a box is its
    minimum and maximum corner. *)
Definition powModel (base exponent : float) : float :=
  if (base =? 0) && (0 <? exponent) then 0
  else if exponent =? 1 then base
  else if exponent =? 2 then base * base
  else if exponent =? 0 then 1
  else nan.

Definition distModel (A B : VecLike) : float :=
  sqrt ((y A - y B) * (y A - y B) + (x A - x B) * (x A - x B)).

Definition accelModel (e : MouseEvent) : bool := ctrlKey e || metaKey e.

Definition wheelModel (e : WheelEvent) : VecLike :=
  {| x := - deltaX e; y := - deltaY e; z := None |}.

Definition boxContainsModel (b : VecLike * VecLike) (p : VecLike) : bool :=
  negb ((x p <? x (fst b)) || (y p <? y (fst b))
        || (x (snd b) <? x p) || (y (snd b) <? y p)).

Definition demoHost : Host := {|
  TLShapeId := nat;
  Shape := bool;
  Box := VecLike * VecLike;
  pow := powModel;
  Vec_Dist := distModel;
  isAccelKey := accelModel;
  normalizeWheel := wheelModel;
  containsPoint := boxContainsModel
|}.

Definition noKeys (cx cy : float) : MouseEvent :=
  {| clientX := cx; clientY := cy; shiftKey := false; altKey := false;
     ctrlKey := false; metaKey := false |}.

Definition finger (id : Z) (cx cy : float) : PointerEvent :=
  {| pointerId := id; pointerMouse := noKeys cx cy |}.

Definition wheelTick (dx dy : float) : WheelEvent :=
  {| deltaX := dx; deltaY := dy; deltaZ := 0; deltaMode := 0%Z;
     wheelMouse := noKeys 10 10 |}.

(** An editor at zoom 1 with zoom speed 1; shape [0] is being edited when
    [editing] is set, it scrolls, and its bounds are the square from (0,0)
    to (50,50). *)
Definition demoEditor (focused editing : bool) (pagePoint : VecLike)
  : @Editor demoHost :=
  @Build_Editor demoHost
    1 1 focused
    (if editing then Some 0%nat else None)
    (fun id => Some (Nat.eqb id 0))
    (fun shape => shape)
    (fun id =>
       Some ({| x := 0; y := 0; z := None |}, {| x := 50; y := 50; z := None |}))
    pagePoint.

Definition plainEditor : @Editor demoHost :=
  demoEditor true false {| x := 0; y := 0; z := None |}.

(** Two fingers down at (0,0) and (100,0): a session with
    [initDistanceBetweenFingers = 100]. *)
Definition twoFingers : State :=
  fst (@onPointerDown demoHost plainEditor (finger 2 100 0)
         (fst (@onPointerDown demoHost plainEditor (finger 1 0 0) initialState))).

(** [twoFingers] after finger 2 moved out to (150,0): the spread grew by 50
    and the session is zooming. *)
Definition zoomingSession : State :=
  fst (@onPointerMove demoHost plainEditor (finger 2 150 0) twoFingers).

(** [twoFingers] after both fingers moved right by 20: the centre drifted by
    20 at constant spread and the session is panning. *)
Definition panningSession : State :=
  fst (@onPointerMove demoHost plainEditor (finger 2 120 0)
         (fst (@onPointerMove demoHost plainEditor (finger 1 20 0) twoFingers))).

(** A session of initial spread 100 and initial centre (50,0), in a given
    mode, current spread and current centre abscissa. *)
Definition sessionWith (mode : PinchState) (spread centreX : float) : State :=
  {| activePointers := activePointers twoFingers;
     pinchState := mode;
     initDistanceBetweenFingers := 100;
     initZoom := 1;
     currDistanceBetweenFingers := spread;
     initPointBetweenFingers := newVecXY 50 0;
     prevPointBetweenFingers := newVecXY centreX 0 |}.

(** The single finger 1 at (0,0). *)
Definition oneFinger : State :=
  fst (@onPointerDown demoHost plainEditor (finger 1 0 0) initialState).

Definition origin : VecLike := {| x := 0; y := 0; z := None |}.

(** An editor without focus, and focused editors whose input point lies
    inside, respectively outside, the bounds of the scrollable shape being
    edited. *)
Definition unfocusedEditor : @Editor demoHost := demoEditor false false origin.

Definition editorOverShape : @Editor demoHost :=
  demoEditor true true {| x := 10; y := 10; z := None |}.

Definition editorBesideShape : @Editor demoHost :=
  demoEditor true true {| x := 100; y := 10; z := None |}.

(** ** Vocabulary for the properties of whole histories *)

(** The keys of a map are pairwise distinct. *)
Fixpoint distinctKeys {V : Type} (m : JsMap.t V) : bool :=
  match m with
  | [] => true
  | (k, _) :: m' => negb (JsMap.has k m') && distinctKeys m'
  end.

(** Every stored event is filed under its own [pointerId]. *)
Definition ownKeys (m : JsMap.t PointerEvent) : bool :=
  forallb (fun entry => Z.eqb (fst entry) (pointerId (snd entry))) m.

Definition wellKeyed (m : JsMap.t PointerEvent) : bool :=
  distinctKeys m && ownKeys m.

(** The names of the pinch events among the effects, in order. *)
Fixpoint pinchNames (effects : list Effect) : list PinchName :=
  match effects with
  | [] => []
  | Dispatch (PinchInfo info) :: rest =>
      TLPinchEventInfo.name info :: pinchNames rest
  | _ :: rest => pinchNames rest
  end.

Definition isPinchEnd (n : PinchName) : bool :=
  match n with
  | pinch_end => true
  | _ => false
  end.

(** How many [pinch_end] events the effects dispatch. *)
Definition countPinchEnds (effects : list Effect) : nat :=
  length (filter isPinchEnd (pinchNames effects)).


Definition isPointerDown (ev : DomEvent) : bool :=
  match ev with
  | PointerDownEv _ => true
  | _ => false
  end.

Definition isPointerEvent (ev : DomEvent) : bool :=
  match ev with
  | PointerDownEv _ | PointerMoveEv _ | PointerUpEv _ | PointerCancelEv _ =>
      true
  | _ => false
  end.


Section Histories.

Context `{Host}.


(** A trace of [pointermove] events. *)
Definition movesTrace (moves : list (Editor * PointerEvent))
  : list (Editor * DomEvent) :=
  map (fun move => (fst move, PointerMoveEv (snd move))) moves.

End Histories.

(** The zooming session joined by a third finger at (50,50). *)
Definition threeFingers : State :=
  fst (@onPointerDown demoHost plainEditor (finger 3 50 50) zoomingSession).

(** An editor like [plainEditor] but zoomed to 4 with zoom speed 2. *)
Definition zoomedEditor : @Editor demoHost :=
  @Build_Editor demoHost 4 2 true None
    (fun id => None) (fun shape => shape) (fun id => None) origin.

(** ** Modifier keys of the dispatched events *)

(** The dispatched event carries the modifier keys of [e], with [ctrlKey]
    set when either the meta or the control key is held. *)
Definition carriesModifiers `{Host} (e : MouseEvent) (effect : Effect) : bool :=
  match effect with
  | Dispatch (PinchInfo info) =>
      Bool.eqb (TLPinchEventInfo.shiftKey info) (shiftKey e)
      && Bool.eqb (TLPinchEventInfo.altKey info) (altKey e)
      && Bool.eqb (TLPinchEventInfo.ctrlKey info) (metaKey e || ctrlKey e)
      && Bool.eqb (TLPinchEventInfo.metaKey info) (metaKey e)
      && Bool.eqb (TLPinchEventInfo.accelKey info) (isAccelKey e)
  | Dispatch (WheelInfo info) =>
      Bool.eqb (TLWheelEventInfo.shiftKey info) (shiftKey e)
      && Bool.eqb (TLWheelEventInfo.altKey info) (altKey e)
      && Bool.eqb (TLWheelEventInfo.ctrlKey info) (metaKey e || ctrlKey e)
      && Bool.eqb (TLWheelEventInfo.metaKey info) (metaKey e)
      && Bool.eqb (TLWheelEventInfo.accelKey info) (isAccelKey e)
  | _ => true
  end.

(** In a dispatched event the meta key never comes without [ctrlKey]. *)
Definition metaImpliesCtrl (effect : Effect) : bool :=
  match effect with
  | Dispatch (PinchInfo info) =>
      implb (TLPinchEventInfo.metaKey info) (TLPinchEventInfo.ctrlKey info)
  | Dispatch (WheelInfo info) =>
      implb (TLWheelEventInfo.metaKey info) (TLWheelEventInfo.ctrlKey info)
  | _ => true
  end.

(** ** The effect of the hook on its container

    The body of the [useEffect] callback and the clean-up it returns. A
    listener is identified by the run of the effect that created the closure
    and by the handler it is; [addEventListener] ignores a listener that is
    already registered for the type, [removeEventListener] removes the
    registered one. *)
Inductive EventType : Type :=
  pointerdown | pointermove | pointerup | pointercancel | wheel.

Inductive Handler : Type :=
  HandlerPointerDown | HandlerPointerMove | HandlerPointerUp | HandlerWheel.

Record EventListener : Type := {
  listenerType : EventType;
  listenerRun : nat;
  listenerHandler : Handler;
  listenerPassive : bool
}.

Record Container : Type := {
  touchAction : String.string;
  webkitUserSelect : String.string;
  eventListeners : list EventListener
}.

Definition eventTypeEqb (a b : EventType) : bool :=
  match a, b with
  | pointerdown, pointerdown | pointermove, pointermove
  | pointerup, pointerup | pointercancel, pointercancel | wheel, wheel => true
  | _, _ => false
  end.

Definition handlerEqb (a b : Handler) : bool :=
  match a, b with
  | HandlerPointerDown, HandlerPointerDown
  | HandlerPointerMove, HandlerPointerMove
  | HandlerPointerUp, HandlerPointerUp
  | HandlerWheel, HandlerWheel => true
  | _, _ => false
  end.

(** The listener is the closure [handler] of run [run], registered for
    [type]. *)
Definition sameListener (type : EventType) (run : nat) (handler : Handler)
  (l : EventListener) : bool :=
  eventTypeEqb (listenerType l) type
  && Nat.eqb (listenerRun l) run
  && handlerEqb (listenerHandler l) handler.

Definition addEventListener (type : EventType) (run : nat) (handler : Handler)
  (passive : bool) (c : Container) : Container :=
  if existsb (sameListener type run handler) (eventListeners c) then c
  else
    {| touchAction := touchAction c;
       webkitUserSelect := webkitUserSelect c;
       eventListeners :=
         eventListeners c
         ++ [{| listenerType := type; listenerRun := run;
                listenerHandler := handler; listenerPassive := passive |}] |}.

Fixpoint removeListener (type : EventType) (run : nat) (handler : Handler)
  (ls : list EventListener) : list EventListener :=
  match ls with
  | [] => []
  | l :: rest =>
      if sameListener type run handler l then rest
      else l :: removeListener type run handler rest
  end.

Definition removeEventListener (type : EventType) (run : nat)
  (handler : Handler) (c : Container) : Container :=
  {| touchAction := touchAction c;
     webkitUserSelect := webkitUserSelect c;
     eventListeners := removeListener type run handler (eventListeners c) |}.

(** The effect body: nothing without a container; otherwise the two style
    assignments and the five registrations, [pointercancel] sharing the
    handler of [pointerup]. *)
Definition mountEffect (run : nat) (container : option Container)
  : option Container :=
  match container with
  | None => None
  | Some c =>
      let styled :=
        {| touchAction := "none"%string;
           webkitUserSelect := "none"%string;
           eventListeners := eventListeners c |} in
      Some
        (addEventListener wheel run HandlerWheel false
           (addEventListener pointercancel run HandlerPointerUp false
              (addEventListener pointerup run HandlerPointerUp false
                 (addEventListener pointermove run HandlerPointerMove false
                    (addEventListener pointerdown run HandlerPointerDown false
                       styled)))))
  end.

(** The clean-up returned by the effect body; there is none when the body
    returned early. *)
Definition cleanupEffect (run : nat) (container : option Container)
  : option Container :=
  match container with
  | None => None
  | Some c =>
      Some
        (removeEventListener wheel run HandlerWheel
           (removeEventListener pointercancel run HandlerPointerUp
              (removeEventListener pointerup run HandlerPointerUp
                 (removeEventListener pointermove run HandlerPointerMove
                    (removeEventListener pointerdown run HandlerPointerDown
                       c)))))
  end.

(** The listeners of a run that answer an event type. *)
Definition listenersFor (type : EventType) (run : nat) (c : Container)
  : list Handler :=
  map listenerHandler
    (filter (fun l => eventTypeEqb (listenerType l) type
                      && Nat.eqb (listenerRun l) run)
       (eventListeners c)).

(** A container that run 7 of some other hook has a wheel listener on. *)
Definition busyContainer : Container :=
  {| touchAction := "auto"%string;
     webkitUserSelect := "auto"%string;
     eventListeners :=
       [{| listenerType := wheel; listenerRun := 7;
           listenerHandler := HandlerWheel; listenerPassive := true |}] |}.

(** No listener of the list was created by run [run] of the effect. *)
Definition foreign (run : nat) (ls : list EventListener) : bool :=
  forallb (fun l => negb (Nat.eqb (listenerRun l) run)) ls.

(** The five listeners the effect registers, in order. *)
Definition registered (run : nat) : list EventListener :=
  [{| listenerType := pointerdown; listenerRun := run;
      listenerHandler := HandlerPointerDown; listenerPassive := false |};
   {| listenerType := pointermove; listenerRun := run;
      listenerHandler := HandlerPointerMove; listenerPassive := false |};
   {| listenerType := pointerup; listenerRun := run;
      listenerHandler := HandlerPointerUp; listenerPassive := false |};
   {| listenerType := pointercancel; listenerRun := run;
      listenerHandler := HandlerPointerUp; listenerPassive := false |};
   {| listenerType := wheel; listenerRun := run;
      listenerHandler := HandlerWheel; listenerPassive := false |}].

(** ** Vocabulary for sessions that are interrupted *)

Section Interruptions.

Context `{Host}.

(** The number of stored pointers after each event of a trace. *)
Fixpoint sizesAlong (trace : list (Editor * DomEvent)) (w : World)
  : list nat :=
  match trace with
  | [] => []
  | (editor, ev) :: rest =>
      let w1 := fst (step editor ev w) in
      JsMap.size (activePointers (hook w1)) :: sizesAlong rest w1
  end.

Definition isWheel (ev : DomEvent) : bool :=
  match ev with
  | WheelEv _ => true
  | _ => false
  end.


End Interruptions.

(** * Properties *)

(** ** Facts about binary64 comparison and zero *)

Lemma SFcompare_Lt_flip (a b : spec_float) :
  SFcompare a b = Some Lt -> SFcompare b a = Some Gt.
Proof.
  destruct a as [sa|sa| |sa ma ea], b as [sb|sb| |sb mb eb]; simpl; intros E;
    try discriminate E;
    try (change (Pos.compare_cont Eq mb ma) with (Pos.compare mb ma);
         change (Pos.compare_cont Eq ma mb) with (Pos.compare ma mb) in E;
         rewrite (Z.compare_antisym ea eb), (Pos.compare_antisym ma mb));
    repeat match goal with c : bool |- _ => destruct c end;
    simpl in *; try discriminate E; try reflexivity;
    destruct (ea ?= eb)%Z; simpl in *; try discriminate E; try reflexivity;
    destruct (ma ?= mb)%positive; simpl in *; try discriminate E;
    reflexivity.
Qed.

(** [a <= b] excludes [b < a]; JavaScript's [b > a] is then [false]. *)
Lemma leb_true_ltb_false (a b : float) :
  (a <=? b) = true -> (b <? a) = false.
Proof.
  rewrite leb_spec, ltb_spec. unfold SFleb, SFltb.
  destruct (SFcompare (Prim2SF b) (Prim2SF a)) as [[ | | ]|] eqn:E;
    try reflexivity.
  apply SFcompare_Lt_flip in E. rewrite E. discriminate.
Qed.

(** [b > a] excludes [b <= a]. *)
Lemma ltb_true_leb_false (a b : float) :
  (a <? b) = true -> (b <=? a) = false.
Proof.
  intros E. destruct (b <=? a) eqn:L; [|reflexivity].
  apply leb_true_ltb_false in L. congruence.
Qed.

(** Positive zero divided by a positive number is positive zero. *)
Lemma zero_div_pos (d : float) : (0 <? d) = true -> 0 / d = 0.
Proof.
  intros Hd. apply Prim2SF_inj. rewrite div_spec.
  rewrite ltb_spec in Hd. unfold SFltb in Hd.
  change (Prim2SF 0) with (S754_zero false) in *.
  destruct (Prim2SF d) as [sd|sd| |sd md ed]; simpl in *;
    try discriminate; destruct sd; try discriminate; reflexivity.
Qed.

(** A positive finite number times positive zero is positive zero. *)
Lemma pos_finite_mul_zero (a : float) :
  (0 <? a) = true -> (a <? infinity) = true -> a * 0 = 0.
Proof.
  intros Hpos Hfin. apply Prim2SF_inj. rewrite mul_spec.
  rewrite ltb_spec in Hpos, Hfin. unfold SFltb in Hpos, Hfin.
  change (Prim2SF 0) with (S754_zero false) in *.
  change (Prim2SF infinity) with (S754_infinity false) in *.
  destruct (Prim2SF a) as [sa|sa| |sa ma ea]; simpl in *;
    try discriminate; destruct sa; try discriminate; reflexivity.
Qed.

(** ** Facts about the pointer map *)

Section MapFacts.

Context {V : Type}.

Lemma size_values (m : JsMap.t V) : length (JsMap.values m) = JsMap.size m.
Proof. unfold JsMap.values, JsMap.size. apply length_map. Qed.

Lemma set_tracked_size (k : Z) (v : V) (m : JsMap.t V) :
  JsMap.has k m = true -> JsMap.size (JsMap.set k v m) = JsMap.size m.
Proof.
  unfold JsMap.size. induction m as [|[k' v'] m IH]; simpl.
  - discriminate.
  - destruct (Z.eqb k k'); simpl; intros Hk; [reflexivity|].
    now rewrite IH.
Qed.

Lemma set_tracked_keys (k : Z) (v : V) (m : JsMap.t V) :
  JsMap.has k m = true -> JsMap.keys (JsMap.set k v m) = JsMap.keys m.
Proof.
  unfold JsMap.keys. induction m as [|[k' v'] m IH]; simpl.
  - discriminate.
  - destruct (Z.eqb k k'); simpl; intros Hk; [reflexivity|].
    now rewrite IH.
Qed.

Lemma set_fresh_size (k : Z) (v : V) (m : JsMap.t V) :
  JsMap.has k m = false -> JsMap.size (JsMap.set k v m) = S (JsMap.size m).
Proof.
  unfold JsMap.size. induction m as [|[k' v'] m IH]; simpl.
  - reflexivity.
  - destruct (Z.eqb k k'); simpl; intros Hk; [discriminate|].
    now rewrite IH.
Qed.

Lemma has_set (k k0 : Z) (v : V) (m : JsMap.t V) :
  JsMap.has k (JsMap.set k0 v m) = Z.eqb k k0 || JsMap.has k m.
Proof.
  induction m as [|[k' v'] m IH]; simpl.
  - now destruct (Z.eqb k k0).
  - destruct (Z.eqb k0 k') eqn:E0; simpl.
    + apply Z.eqb_eq in E0. subst k'.
      destruct (Z.eqb k k0); reflexivity.
    + rewrite IH. destruct (Z.eqb k k'), (Z.eqb k k0); reflexivity.
Qed.

Lemma has_delete (k k0 : Z) (m : JsMap.t V) :
  JsMap.has k m = false -> JsMap.has k (JsMap.delete k0 m) = false.
Proof.
  induction m as [|[k' v'] m IH]; simpl; [reflexivity|].
  destruct (Z.eqb k k') eqn:E; [discriminate|]. intros Hk.
  destruct (Z.eqb k0 k'); simpl; [assumption|].
  rewrite E. now apply IH.
Qed.

Lemma delete_untracked (k : Z) (m : JsMap.t V) :
  JsMap.has k m = false -> JsMap.delete k m = m.
Proof.
  induction m as [|[k' v'] m IH]; simpl; [reflexivity|].
  destruct (Z.eqb k k'); [discriminate|]. intros Hk. now rewrite IH.
Qed.

Lemma delete_tracked_size (k : Z) (m : JsMap.t V) :
  JsMap.has k m = true -> S (JsMap.size (JsMap.delete k m)) = JsMap.size m.
Proof.
  unfold JsMap.size. induction m as [|[k' v'] m IH]; simpl; [discriminate|].
  destruct (Z.eqb k k'); simpl; intros Hk; [reflexivity|].
  now rewrite IH.
Qed.

Lemma values_of_two (m : JsMap.t V) :
  JsMap.size m = 2%nat -> exists p1 p2, JsMap.values m = [p1; p2].
Proof.
  destruct m as [|[k1 p1] [|[k2 p2] [|]]]; simpl; try discriminate.
  intros _. now exists p1, p2.
Qed.

End MapFacts.

(** ** The handlers, case by case *)

Section Handlers.

Context `{Host}.

(** The classification step writes [pinchState] and nothing else. *)
Lemma updatePinchState_frame (s : State) :
  updatePinchState s = with_pinchState (pinchState (updatePinchState s)) s.
Proof.
  unfold updatePinchState.
  destruct s as [m mode d0 z0 d c0 c]; simpl.
  destruct mode; simpl; try reflexivity;
    repeat match goal with
           | |- context [if ?b then _ else _] => destruct b
           end; reflexivity.
Qed.

Lemma updatePinchState_zooming (s : State) :
  pinchState s = Zooming -> updatePinchState s = s.
Proof. unfold updatePinchState. now intros ->. Qed.

(** A [pointermove] of a pointer that is not in the map returns at once. *)
Lemma onPointerMove_untracked (editor : Editor) (e : PointerEvent) (s : State) :
  JsMap.has (pointerId e) (activePointers s) = false ->
  onPointerMove editor e s = (s, []).
Proof. unfold onPointerMove. now intros ->. Qed.

(** A [pointermove] of a tracked pointer while two pointers are down: the
    geometry is recorded, the mode classified, and the mode decides what is
    dispatched. *)
Lemma onPointerMove_session (editor : Editor) (e : PointerEvent) (s : State)
  (p1 p2 : PointerEvent) :
  JsMap.has (pointerId e) (activePointers s) = true ->
  JsMap.values (JsMap.set (pointerId e) e (activePointers s)) = [p1; p2] ->
  let pointers := JsMap.set (pointerId e) e (activePointers s) in
  let center := getPointerCenter p1 p2 in
  let moved :=
    {| x := x center - x (prevPointBetweenFingers s);
       y := y center - y (prevPointBetweenFingers s);
       z := None |} in
  let s' := updatePinchState (recordGeometry pointers p1 p2 s) in
  onPointerMove editor e s =
    (s',
     match pinchState s' with
     | Zooming =>
         [Dispatch (PinchInfo
            (pinchInfo pinch
               {| x := x center; y := y center;
                  z := Some (initZoom s'
                             * pow (currDistanceBetweenFingers s'
                                    / initDistanceBetweenFingers s')
                                 (zoomSpeed editor)) |}
               moved e))]
     | Panning =>
         [Dispatch (PinchInfo
            (pinchInfo pinch
               {| x := x center; y := y center; z := Some (initZoom s') |}
               moved e))]
     | NotSure => []
     end).
Proof.
  intros Hhas Hvals. unfold onPointerMove. rewrite Hhas. simpl negb. cbv iota.
  assert (Hsize : JsMap.size (JsMap.set (pointerId e) e (activePointers s))
                  = 2%nat)
    by (rewrite <- size_values, Hvals; reflexivity).
  rewrite Hsize, Hvals. simpl.
  destruct (pinchState
              (updatePinchState
                 (recordGeometry
                    (JsMap.set (pointerId e) e (activePointers s)) p1 p2 s)));
    reflexivity.
Qed.

(** A [pointermove] of a tracked pointer at any other count only stores the
    event. *)
Lemma onPointerMove_outside_session (editor : Editor) (e : PointerEvent)
  (s : State) :
  JsMap.has (pointerId e) (activePointers s) = true ->
  JsMap.size (activePointers s) <> 2%nat ->
  onPointerMove editor e s =
    (with_activePointers (JsMap.set (pointerId e) e (activePointers s)) s, []).
Proof.
  intros Hhas Hsize. unfold onPointerMove. rewrite Hhas. simpl negb. cbv iota.
  rewrite (set_tracked_size _ _ _ Hhas).
  apply Nat.eqb_neq in Hsize. now rewrite Hsize.
Qed.

(** A move never leaves the zooming mode, whatever the pointer. *)
Lemma onPointerMove_keeps_zooming (editor : Editor) (e : PointerEvent)
  (s : State) :
  pinchState s = Zooming ->
  pinchState (fst (onPointerMove editor e s)) = Zooming.
Proof.
  intros Hz. unfold onPointerMove.
  destruct (negb (JsMap.has (pointerId e) (activePointers s))); [exact Hz|].
  destruct (Nat.eqb _ 2); [|exact Hz].
  destruct (JsMap.values _) as [|p1 [|p2 rest]]; try exact Hz.
  rewrite updatePinchState_zooming by exact Hz. simpl. rewrite Hz.
  exact Hz.
Qed.

(** A release outside a two-pointer session only deletes the pointer. *)
Lemma onPointerUp_outside_session (editor : Editor) (e : PointerEvent)
  (s : State) :
  JsMap.size (activePointers s) <> 2%nat ->
  onPointerUp editor e s =
    (with_activePointers (JsMap.delete (pointerId e) (activePointers s)) s, []).
Proof.
  intros Hsize. unfold onPointerUp.
  apply Nat.eqb_neq in Hsize. now rewrite Hsize.
Qed.

(** A release of an untracked pointer at any count other than two changes
    nothing. *)
Lemma onPointerUp_untracked_outside_session (editor : Editor)
  (e : PointerEvent) (s : State) :
  JsMap.has (pointerId e) (activePointers s) = false ->
  JsMap.size (activePointers s) <> 2%nat ->
  onPointerUp editor e s = (s, []).
Proof.
  intros Hhas Hsize. rewrite (onPointerUp_outside_session _ _ _ Hsize).
  rewrite (delete_untracked _ _ Hhas). now destruct s.
Qed.

(** A release while two pointers are down does not look at whose pointer it
    is: the mode is reset and a [pinch_end] requested even when the released
    pointer is not one of the two. *)
Lemma onPointerUp_at_two (editor : Editor) (e : PointerEvent) (s : State) :
  JsMap.size (activePointers s) = 2%nat ->
  onPointerUp editor e s =
    (with_activePointers (JsMap.delete (pointerId e) (activePointers s))
       (with_pinchState NotSure s),
     [RequestAnimationFrame
        {| finalZoom :=
             initZoom s
             * pow (currDistanceBetweenFingers s / initDistanceBetweenFingers s)
                 (zoomSpeed editor);
           releaseEvent := e |}]).
Proof. intros Hsize. unfold onPointerUp. now rewrite Hsize. Qed.

End Handlers.

(** ** Untracked pointers *)

Section Tracking.

Context `{Host}.

Lemma updatePinchState_pointers (s : State) :
  activePointers (updatePinchState s) = activePointers s.
Proof. now rewrite updatePinchState_frame. Qed.

Lemma onPointerDown_pointers (editor : Editor) (e : PointerEvent) (s : State) :
  activePointers (fst (onPointerDown editor e s))
  = JsMap.set (pointerId e) e (activePointers s).
Proof.
  unfold onPointerDown. destruct (Nat.eqb _ 2); [|reflexivity].
  destruct (JsMap.values _) as [|p1 [|p2 rest]]; reflexivity.
Qed.

Lemma onPointerMove_pointers (editor : Editor) (e : PointerEvent) (s : State) :
  activePointers (fst (onPointerMove editor e s))
  = if JsMap.has (pointerId e) (activePointers s)
    then JsMap.set (pointerId e) e (activePointers s)
    else activePointers s.
Proof.
  unfold onPointerMove.
  destruct (JsMap.has (pointerId e) (activePointers s)); [|reflexivity].
  simpl negb. cbv iota. destruct (Nat.eqb _ 2); [|reflexivity].
  destruct (JsMap.values _) as [|p1 [|p2 rest]]; try reflexivity.
  destruct (pinchState (updatePinchState _)) eqn:E; simpl;
    now rewrite updatePinchState_pointers.
Qed.

Lemma onPointerUp_pointers (editor : Editor) (e : PointerEvent) (s : State) :
  activePointers (fst (onPointerUp editor e s))
  = JsMap.delete (pointerId e) (activePointers s).
Proof. unfold onPointerUp. destruct (Nat.eqb _ 2); reflexivity. Qed.

Lemma onWheel_pointers (editor : Editor) (e : WheelEvent) (s : State) :
  activePointers (fst (onWheel editor e s)) = activePointers s.
Proof.
  unfold onWheel. destruct (negb _); [reflexivity|].
  destruct (scrollsEditingShape _); [reflexivity|].
  destruct (_ && _); reflexivity.
Qed.

Lemma step_hook (editor : Editor) (ev : DomEvent) (w : World) :
  hook (fst (step editor ev w)) = fst (handle editor ev (hook w)).
Proof.
  destruct ev; simpl; try reflexivity;
    match goal with |- context [let '(_, _) := ?c in _] => destruct c end;
    reflexivity.
Qed.

(** Only a [pointerdown] of pointer [k] puts [k] into the map. *)
Lemma step_keeps_untracked (editor : Editor) (ev : DomEvent) (w : World)
  (k : Z) :
  startsPointer k ev = false ->
  JsMap.has k (activePointers (hook w)) = false ->
  JsMap.has k (activePointers (hook (fst (step editor ev w)))) = false.
Proof.
  intros Hev Hk. rewrite step_hook. destruct ev as [e|e|e|e|e|]; simpl.
  - rewrite onPointerDown_pointers, has_set, Hk. simpl in Hev.
    rewrite Z.eqb_sym. now rewrite Hev.
  - rewrite onPointerMove_pointers.
    destruct (JsMap.has (pointerId e) (activePointers (hook w))) eqn:He;
      [|exact Hk].
    rewrite has_set, Hk. destruct (Z.eqb k (pointerId e)) eqn:E;
      [|reflexivity].
    apply Z.eqb_eq in E. subst k. congruence.
  - rewrite onPointerUp_pointers. now apply has_delete.
  - rewrite onPointerUp_pointers. now apply has_delete.
  - now rewrite onWheel_pointers.
  - exact Hk.
Qed.

Lemma run_cons (editor : Editor) (ev : DomEvent)
  (rest : list (Editor * DomEvent)) (w : World) :
  fst (run ((editor, ev) :: rest) w) = fst (run rest (fst (step editor ev w))).
Proof.
  simpl. destruct (step editor ev w) as [w1 effects1]. simpl.
  now destruct (run rest w1).
Qed.

(** A pointer that no [pointerdown] of the history names is not tracked. *)
Lemma never_started_untracked (trace : list (Editor * DomEvent)) (w : World)
  (k : Z) :
  JsMap.has k (activePointers (hook w)) = false ->
  forallb (fun step => negb (startsPointer k (snd step))) trace = true ->
  JsMap.has k (activePointers (hook (fst (run trace w)))) = false.
Proof.
  revert w. induction trace as [|[editor ev] rest IH]; intros w Hk Hall.
  - exact Hk.
  - simpl in Hall. apply andb_prop in Hall. destruct Hall as [Hev Hrest].
    rewrite run_cons. apply IH; [|exact Hrest].
    apply step_keeps_untracked; [|exact Hk].
    now apply negb_true_iff in Hev.
Qed.

(** The move half of contact robustness: a [pointermove] of a pointer never
    seen in a [pointerdown] changes nothing and emits nothing. *)
Lemma move_of_never_started_pointer (trace : list (Editor * DomEvent))
  (editor : Editor) (e : PointerEvent) :
  forallb (fun step => negb (startsPointer (pointerId e) (snd step))) trace
  = true ->
  step editor (PointerMoveEv e) (fst (run trace initialWorld))
  = (fst (run trace initialWorld), []).
Proof.
  intros Hall.
  pose proof (never_started_untracked trace initialWorld (pointerId e)
                eq_refl Hall) as Hk.
  simpl. rewrite (onPointerMove_untracked _ _ _ Hk). simpl.
  rewrite app_nil_r. now destruct (fst (run trace initialWorld)).
Qed.

End Tracking.

(** C1 (end half, on the code). Fingers 1 and 2 go down and spread until the
    session is zooming; pointer 3 never went down here. Its release leaves
    both fingers in the map, yet resets the mode to [NotSure] and requests a
    [pinch_end], which the next frame dispatches. The specification asks for no
    state change and no emitted event. *)
Theorem untracked_release_ends_session :
  let trace :=
    [(plainEditor, PointerDownEv (finger 1 0 0));
     (plainEditor, PointerDownEv (finger 2 100 0));
     (plainEditor, PointerMoveEv (finger 2 150 0))] in
  let w := fst (run trace initialWorld) in
  let w' := fst (step plainEditor (PointerUpEv (finger 3 150 0)) w) in
  forallb (fun step => negb (startsPointer 3 (snd step))) trace = true /\
  JsMap.has 3 (activePointers (hook w)) = false /\
  pinchState (hook w) = Zooming /\
  pinchState (hook w') = NotSure /\
  JsMap.keys (activePointers (hook w')) = [1%Z; 2%Z] /\
  snd (step plainEditor (PointerUpEv (finger 3 150 0)) w)
  = [RequestAnimationFrame
       {| finalZoom := 1.5; releaseEvent := finger 3 150 0 |}] /\
  snd (step plainEditor AnimationFrameEv w')
  = [Dispatch (PinchInfo
       (@pinchInfo demoHost pinch_end
          {| x := 75; y := 0; z := Some 1.5 |}
          {| x := 75; y := 0; z := None |}
          (finger 3 150 0)))].
Proof. repeat split. Qed.

(** ** Classification *)

Section Classification.

Context `{Host}.

(** C2. The classification step, with
    [touchSpread = |currDistance - initDistance|] and
    [originDrift = Vec.Dist initPoint prevPoint]: undecided stays undecided
    when [touchSpread <= 24] and [originDrift <= 16]; undecided becomes
    zooming when [touchSpread > 24]; undecided becomes panning when
    [originDrift > 16] and [touchSpread <= 24]; panning becomes zooming when
    [touchSpread > 64] and stays panning when [touchSpread <= 64]. *)
Theorem updatePinchState_thresholds (s : State) :
  let touchSpread :=
    abs (currDistanceBetweenFingers s - initDistanceBetweenFingers s) in
  let originDrift :=
    Vec_Dist (initPointBetweenFingers s) (prevPointBetweenFingers s) in
  (pinchState s = NotSure ->
   (touchSpread <=? 24) = true -> (originDrift <=? 16) = true ->
   pinchState (updatePinchState s) = NotSure) /\
  (pinchState s = NotSure ->
   (24 <? touchSpread) = true ->
   pinchState (updatePinchState s) = Zooming) /\
  (pinchState s = NotSure ->
   (16 <? originDrift) = true -> (touchSpread <=? 24) = true ->
   pinchState (updatePinchState s) = Panning) /\
  (pinchState s = Panning ->
   (64 <? touchSpread) = true ->
   pinchState (updatePinchState s) = Zooming) /\
  (pinchState s = Panning ->
   (touchSpread <=? 64) = true ->
   pinchState (updatePinchState s) = Panning).
Proof.
  intros touchSpread originDrift. unfold updatePinchState.
  fold touchSpread. fold originDrift.
  repeat split; intros Hmode; rewrite Hmode.
  - intros Hs Hd. apply leb_true_ltb_false in Hs, Hd.
    rewrite Hs, Hd. exact Hmode.
  - intros Hs. now rewrite Hs.
  - intros Hd Hs. apply leb_true_ltb_false in Hs. now rewrite Hs, Hd.
  - intros Hs. now rewrite Hs.
  - intros Hs. apply leb_true_ltb_false in Hs. rewrite Hs. exact Hmode.
Qed.


Lemma step_continuing_keeps_zooming (editor : Editor) (ev : DomEvent)
  (w : World) :
  continuesSession ev = true ->
  pinchState (hook w) = Zooming ->
  pinchState (hook (fst (step editor ev w))) = Zooming.
Proof.
  intros Hev Hz. rewrite step_hook.
  destruct ev as [e|e|e|e|e|]; try discriminate Hev; simpl.
  - now apply onPointerMove_keeps_zooming.
  - exact Hz.
Qed.

(** C3, as the code has it. Once the mode is zooming, every later update
    step leaves it zooming as long as the session sees moves and frame ticks
    only (no [pointerdown], no release, no wheel event): the mode after each
    event of the trace is [Zooming]. *)
Theorem zooming_is_terminal (trace : list (Editor * DomEvent)) (w : World) :
  pinchState (hook w) = Zooming ->
  forallb (fun step => continuesSession (snd step)) trace = true ->
  Forall (fun mode => mode = Zooming) (modesAlong trace w) /\
  pinchState (hook (fst (run trace w))) = Zooming.
Proof.
  revert w. induction trace as [|[editor ev] rest IH]; intros w Hz Hall.
  - split; [constructor | exact Hz].
  - simpl in Hall. apply andb_prop in Hall. destruct Hall as [Hev Hrest].
    pose proof (step_continuing_keeps_zooming editor ev w Hev Hz) as Hz1.
    destruct (IH _ Hz1 Hrest) as [Hmodes Hlast].
    split.
    + simpl. constructor; assumption.
    + now rewrite run_cons.
Qed.

End Classification.

(** C2 at concrete sessions of initial spread 100 and initial centre (50,0):
    spread 110 and drift 5 stay undecided; spread 130 zooms; spread 110 with
    drift 20 pans; a pan zooms at spread 170 and stays a pan at spread 150. *)
Lemma updatePinchState_thresholds_witness :
  pinchState (@updatePinchState demoHost (sessionWith NotSure 110 55)) = NotSure /\
  pinchState (@updatePinchState demoHost (sessionWith NotSure 130 55)) = Zooming /\
  pinchState (@updatePinchState demoHost (sessionWith NotSure 110 70)) = Panning /\
  pinchState (@updatePinchState demoHost (sessionWith Panning 170 70)) = Zooming /\
  pinchState (@updatePinchState demoHost (sessionWith Panning 150 70)) = Panning.
Proof.
  pose (T := @updatePinchState_thresholds demoHost).
  exact (conj (proj1 (T (sessionWith NotSure 110 55)) eq_refl eq_refl eq_refl)
        (conj (proj1 (proj2 (T (sessionWith NotSure 130 55))) eq_refl eq_refl)
        (conj (proj1 (proj2 (proj2 (T (sessionWith NotSure 110 70))))
                 eq_refl eq_refl eq_refl)
        (conj (proj1 (proj2 (proj2 (proj2 (T (sessionWith Panning 170 70)))))
                 eq_refl eq_refl)
              (proj2 (proj2 (proj2 (proj2 (T (sessionWith Panning 150 70)))))
                 eq_refl eq_refl))))).
Defined.

(** C3 as stated fails while the count stays at two and no wheel event
    arrives: in the zooming session finger 1 goes down again, which starts
    the session anew; the moves that follow are classified from undecided
    and end in panning. *)
Lemma restart_leaves_zooming :
  let trace :=
    [(plainEditor, PointerDownEv (finger 1 0 0));
     (plainEditor, PointerMoveEv (finger 2 152 0));
     (plainEditor, PointerMoveEv (finger 1 20 0));
     (plainEditor, PointerMoveEv (finger 2 172 0))] in
  let w := {| hook := zoomingSession; pendingFrames := [] |} in
  pinchState (hook w) = Zooming /\
  JsMap.size (activePointers (hook w)) = 2%nat /\
  existsb (fun step => isWheel (snd step)) trace = false /\
  sizesAlong trace w = [2; 2; 2; 2]%nat /\
  modesAlong trace w = [NotSure; NotSure; NotSure; Panning] /\
  ~ Forall (fun mode => mode = Zooming) (modesAlong trace w).
Proof.
  repeat split. intros Hall. inversion Hall as [|mode modes Hmode Hrest].
  discriminate Hmode.
Qed.

(** The same happens, through the release of a pointer that is not one of
    the two, on the trace move 2, up 3, move 2, move 1, move 2. *)
Lemma untracked_release_leaves_zooming :
  let trace :=
    [(plainEditor, PointerMoveEv (finger 2 150 0));
     (plainEditor, PointerUpEv (finger 3 0 0));
     (plainEditor, PointerMoveEv (finger 2 110 0));
     (plainEditor, PointerMoveEv (finger 1 20 0));
     (plainEditor, PointerMoveEv (finger 2 125 0))] in
  let w := {| hook := zoomingSession; pendingFrames := [] |} in
  sizesAlong trace w = [2; 2; 2; 2; 2]%nat /\
  modesAlong trace w = [Zooming; NotSure; NotSure; NotSure; Panning].
Proof. repeat split. Qed.

(** C3 on the zooming session: the fingers close again to the initial
    spread, then drift sideways; the mode stays zooming after each move. *)
Lemma zooming_is_terminal_witness :
  let trace :=
    [(plainEditor, PointerMoveEv (finger 2 100 0));
     (plainEditor, PointerMoveEv (finger 1 40 0));
     (plainEditor, AnimationFrameEv);
     (plainEditor, PointerMoveEv (finger 2 140 0))] in
  let w := {| hook := zoomingSession; pendingFrames := [] |} in
  Forall (fun mode => mode = Zooming) (modesAlong trace w) /\
  pinchState (hook (fst (run trace w))) = Zooming.
Proof.
  intros trace w.
  apply (@zooming_is_terminal demoHost trace w); reflexivity.
Defined.

(** ** What an update step dispatches *)

Section Updates.

Context `{Host}.

(** C4. An update step that ends in zooming mode dispatches one [pinch]
    whose [z] is [initZoom * (currDistance / initDistance) ** zoomSpeed],
    with [currDistance] the spread just measured; with [initZoom = 1],
    [initDistance = 100], [currDistance = 150] and [zoomSpeed = 1] it is 1.5
    (given that the engine's [1.5 ** 1] is 1.5). *)
Theorem zooming_update_zoom (editor : Editor) (e : PointerEvent) (s : State)
  (p1 p2 : PointerEvent) :
  JsMap.has (pointerId e) (activePointers s) = true ->
  JsMap.values (JsMap.set (pointerId e) e (activePointers s)) = [p1; p2] ->
  pinchState (fst (onPointerMove editor e s)) = Zooming ->
  exists info,
    snd (onPointerMove editor e s) = [Dispatch (PinchInfo info)] /\
    TLPinchEventInfo.name info = pinch /\
    currDistanceBetweenFingers (fst (onPointerMove editor e s))
    = getPointerDistance p1 p2 /\
    z (TLPinchEventInfo.point info)
    = Some (initZoom s
            * pow (getPointerDistance p1 p2 / initDistanceBetweenFingers s)
                (zoomSpeed editor)) /\
    (initZoom s = 1 -> initDistanceBetweenFingers s = 100 ->
     getPointerDistance p1 p2 = 150 -> zoomSpeed editor = 1 ->
     pow 1.5 1 = 1.5 ->
     z (TLPinchEventInfo.point info) = Some 1.5).
Proof.
  intros Hhas Hvals.
  rewrite (onPointerMove_session _ _ _ _ _ Hhas Hvals). simpl fst. simpl snd.
  intros Hz. rewrite Hz.
  rewrite updatePinchState_frame. simpl.
  eexists. split; [reflexivity|]. simpl. repeat split.
  intros -> -> -> -> Hpow.
  replace (150 / 100) with 1.5 by reflexivity. rewrite Hpow.
  reflexivity.
Qed.



End Updates.

(** C4 on the two-finger session at zoom 1: finger 2 moves from (100,0) to
    (150,0) and the dispatched zoom is 1.5. *)
Lemma zooming_update_zoom_witness :
  exists info,
    snd (@onPointerMove demoHost plainEditor (finger 2 150 0) twoFingers)
    = [Dispatch (PinchInfo info)] /\
    z (TLPinchEventInfo.point info) = Some 1.5.
Proof.
  destruct (@zooming_update_zoom demoHost plainEditor (finger 2 150 0)
              twoFingers (finger 1 0 0) (finger 2 150 0)
              eq_refl eq_refl eq_refl)
    as (info & Heffects & _ & _ & _ & Hz).
  exists info. split; [exact Heffects|].
  apply Hz; reflexivity.
Defined.



(** The callback reads [prevPointBetweenFingers] when it runs: if finger 1
    lifts from the panning session and comes down again at (0,40) before the
    frame fires, the [pinch_end] of the old session is dispatched at the new
    session's centre (60,20), with the old terminal zoom. *)
Lemma pending_pinch_end_reads_current_centre :
  snd (run
         [(plainEditor, PointerUpEv (finger 1 20 0));
          (plainEditor, PointerDownEv (finger 1 0 40));
          (plainEditor, AnimationFrameEv)]
         {| hook := panningSession; pendingFrames := [] |})
  = [RequestAnimationFrame
       {| finalZoom := 1; releaseEvent := finger 1 20 0 |};
     Dispatch (PinchInfo
       (@pinchInfo demoHost pinch_start
          {| x := 60; y := 20; z := Some 1 |}
          {| x := 0; y := 0; z := None |}
          (finger 1 0 40)));
     Dispatch (PinchInfo
       (@pinchInfo demoHost pinch_end
          {| x := 60; y := 20; z := Some 1 |}
          {| x := 60; y := 20; z := None |}
          (finger 1 20 0)))].
Proof. reflexivity. Qed.

(** ** Wheel events *)

Section Wheel.

Context `{Host}.

(** The nested tests of [onWheel] decide the exemption as the specification
    words it. *)
Lemma scrollsEditingShape_spec (editor : Editor) :
  scrollsEditingShape editor = true <-> editingShapeScrollsUnderPoint editor.
Proof.
  unfold scrollsEditingShape, editingShapeScrollsUnderPoint. split.
  - destruct (getEditingShapeId editor) as [id|] eqn:Eid; [|discriminate].
    destruct (getShape editor id) as [shape|] eqn:Eshape; [|discriminate].
    destruct (canScroll editor shape) eqn:Escroll; [|discriminate].
    destruct (getShapePageBounds editor id) as [bounds|] eqn:Ebounds;
      [|discriminate].
    intros Hin. now exists id, shape, bounds.
  - intros (id & shape & bounds & -> & -> & -> & -> & Hin). exact Hin.
Qed.

Lemma onWheel_unfocused (editor : Editor) (e : WheelEvent) (s : State) :
  isFocused editor = false -> onWheel editor e s = (s, []).
Proof. unfold onWheel. now intros ->. Qed.

(** C7, as the code has it. With the editor focused, a wheel event sets the
    mode to [NotSure], leaves the pointer map and every other session field
    as they were, requests no frame callback and dispatches no pinch event. *)
Theorem focused_wheel_resets_mode (editor : Editor) (e : WheelEvent)
  (s : State) :
  isFocused editor = true ->
  let s' := fst (onWheel editor e s) in
  pinchState s' = NotSure /\
  activePointers s' = activePointers s /\
  initDistanceBetweenFingers s' = initDistanceBetweenFingers s /\
  initZoom s' = initZoom s /\
  currDistanceBetweenFingers s' = currDistanceBetweenFingers s /\
  initPointBetweenFingers s' = initPointBetweenFingers s /\
  prevPointBetweenFingers s' = prevPointBetweenFingers s /\
  scheduled (snd (onWheel editor e s)) = [] /\
  (forall info, ~ In (Dispatch (PinchInfo info)) (snd (onWheel editor e s))).
Proof.
  intros Hfocus. unfold onWheel. rewrite Hfocus. simpl negb. cbv iota.
  destruct (scrollsEditingShape editor).
  - simpl. repeat split. intros info [].
  - destruct ((x (normalizeWheel e) =? 0) && (y (normalizeWheel e) =? 0));
      simpl; repeat split; intros info Hin;
      repeat (destruct Hin as [Hin|Hin]; [discriminate Hin|]);
      exact Hin.
Qed.

(** C8. With the editor focused: when the edited shape scrolls and its
    bounds contain the input point, the handler does nothing to the event
    (no [preventDefault], no dispatch); otherwise it calls [preventDefault]
    and [stopEventPropagation] and then dispatches one [wheel] event with
    the normalised delta, unless that delta is (0,0), in which case nothing
    is dispatched. *)
Theorem onWheel_exemption (editor : Editor) (e : WheelEvent) (s : State) :
  isFocused editor = true ->
  let delta := normalizeWheel e in
  (editingShapeScrollsUnderPoint editor -> snd (onWheel editor e s) = []) /\
  (~ editingShapeScrollsUnderPoint editor ->
   ((x delta =? 0) && (y delta =? 0) = true ->
    snd (onWheel editor e s) = [PreventDefault; StopEventPropagation]) /\
   ((x delta =? 0) && (y delta =? 0) = false ->
    snd (onWheel editor e s)
    = [PreventDefault; StopEventPropagation;
       Dispatch (WheelInfo
         {| TLWheelEventInfo.delta := delta;
            TLWheelEventInfo.point := newVecXY (clientX e) (clientY e);
            TLWheelEventInfo.shiftKey := shiftKey e;
            TLWheelEventInfo.altKey := altKey e;
            TLWheelEventInfo.ctrlKey := metaKey e || ctrlKey e;
            TLWheelEventInfo.metaKey := metaKey e;
            TLWheelEventInfo.accelKey := isAccelKey e |})])).
Proof.
  intros Hfocus delta. unfold onWheel. rewrite Hfocus. simpl negb. cbv iota.
  fold delta. split.
  - intros Hex. apply scrollsEditingShape_spec in Hex. now rewrite Hex.
  - intros Hnot.
    destruct (scrollsEditingShape editor) eqn:E.
    + exfalso. apply Hnot. now apply scrollsEditingShape_spec.
    + split; intros Hzero; now rewrite Hzero.
Qed.

End Wheel.

(** C7 as stated fails without focus: the handler returns before the reset
    and the panning session keeps its mode. *)
Lemma unfocused_wheel_keeps_panning :
  pinchState panningSession = Panning /\
  @onWheel demoHost unfocusedEditor (wheelTick 0 3) panningSession
  = (panningSession, []) /\
  pinchState (fst (@onWheel demoHost unfocusedEditor (wheelTick 0 3)
                     panningSession)) <> NotSure.
Proof. repeat split. discriminate. Qed.

(** C7 on the panning session with a focused editor. *)
Lemma focused_wheel_resets_mode_witness :
  let s' := fst (@onWheel demoHost plainEditor (wheelTick 0 3) panningSession) in
  pinchState panningSession = Panning /\
  pinchState s' = NotSure /\
  activePointers s' = activePointers panningSession /\
  currDistanceBetweenFingers s' = 100 /\
  scheduled (snd (@onWheel demoHost plainEditor (wheelTick 0 3) panningSession))
  = [].
Proof.
  intros s'.
  destruct (@focused_wheel_resets_mode demoHost plainEditor (wheelTick 0 3)
              panningSession eq_refl)
    as (Hmode & Hptrs & _ & _ & Hcurr & _ & _ & Hsched & _).
  repeat split; try assumption.
Defined.

(** C8 on three wheel events: over the scrollable shape, beside it, and
    beside it with a zero delta. *)
Lemma onWheel_exemption_witness :
  snd (@onWheel demoHost editorOverShape (wheelTick 0 3) twoFingers) = [] /\
  snd (@onWheel demoHost editorBesideShape (wheelTick 0 3) twoFingers)
  = [PreventDefault; StopEventPropagation;
     Dispatch (WheelInfo
       {| TLWheelEventInfo.delta := {| x := -0; y := -3; z := None |};
          TLWheelEventInfo.point := newVecXY 10 10;
          TLWheelEventInfo.shiftKey := false;
          TLWheelEventInfo.altKey := false;
          TLWheelEventInfo.ctrlKey := false;
          TLWheelEventInfo.metaKey := false;
          TLWheelEventInfo.accelKey := false |})] /\
  snd (@onWheel demoHost editorBesideShape (wheelTick 0 0) twoFingers)
  = [PreventDefault; StopEventPropagation].
Proof.
  assert (Hbeside : ~ @editingShapeScrollsUnderPoint demoHost editorBesideShape).
  { intros Hex. apply scrollsEditingShape_spec in Hex. discriminate Hex. }
  split; [|split].
  - apply (proj1 (@onWheel_exemption demoHost editorOverShape (wheelTick 0 3)
                    twoFingers eq_refl)).
    apply scrollsEditingShape_spec. reflexivity.
  - apply (proj2 (proj2 (@onWheel_exemption demoHost editorBesideShape
                           (wheelTick 0 3) twoFingers eq_refl) Hbeside)).
    reflexivity.
  - apply (proj1 (proj2 (@onWheel_exemption demoHost editorBesideShape
                           (wheelTick 0 0) twoFingers eq_refl) Hbeside)).
    reflexivity.
Defined.

(** ** Starts *)

Section Starts.

Context `{Host}.

Lemma get_set_same {V : Type} (k : Z) (v : V) (m : JsMap.t V) :
  JsMap.get k (JsMap.set k v m) = Some v.
Proof.
  induction m as [|[k' v'] m IH]; simpl.
  - now rewrite Z.eqb_refl.
  - destruct (Z.eqb k k') eqn:E; simpl; rewrite E; [reflexivity | exact IH].
Qed.

(** A [pointerdown] that leaves exactly two pointers in the map starts a
    session, whether or not its pointer was tracked before. *)
Lemma onPointerDown_at_two (editor : Editor) (e : PointerEvent) (s : State)
  (p1 p2 : PointerEvent) :
  JsMap.values (JsMap.set (pointerId e) e (activePointers s)) = [p1; p2] ->
  let center := getPointerCenter p1 p2 in
  onPointerDown editor e s
  = ({| activePointers := JsMap.set (pointerId e) e (activePointers s);
        pinchState := NotSure;
        initDistanceBetweenFingers := getPointerDistance p1 p2;
        initZoom := getZoomLevel editor;
        currDistanceBetweenFingers := currDistanceBetweenFingers s;
        initPointBetweenFingers :=
          assignXY (initPointBetweenFingers s) (x center) (y center);
        prevPointBetweenFingers :=
          assignXY (prevPointBetweenFingers s) (x center) (y center) |},
     [Dispatch (PinchInfo
        (pinchInfo pinch_start
           {| x := x center; y := y center; z := Some (getZoomLevel editor) |}
           {| x := 0; y := 0; z := None |}
           e))]).
Proof.
  intros Hvals center. unfold onPointerDown.
  assert (Hsize : JsMap.size (JsMap.set (pointerId e) e (activePointers s))
                  = 2%nat)
    by (rewrite <- size_values, Hvals; reflexivity).
  now rewrite Hsize, Hvals.
Qed.

Lemma onPointerDown_not_two (editor : Editor) (e : PointerEvent) (s : State) :
  JsMap.size (JsMap.set (pointerId e) e (activePointers s)) <> 2%nat ->
  onPointerDown editor e s
  = (with_activePointers (JsMap.set (pointerId e) e (activePointers s)) s, []).
Proof.
  intros Hsize. unfold onPointerDown.
  apply Nat.eqb_neq in Hsize. now rewrite Hsize.
Qed.

(** C9, as the code has it. A [pointerdown] of a tracked pointer stores the
    new event under the pointer's key, in place (keys and count are kept).
    When the count is not two that is all: no other field changes and
    nothing is dispatched. When the count is two the handler starts the
    session again: mode [NotSure], centres and initial spread recomputed,
    initial zoom re-read, and a [pinch_start] dispatched. *)
Theorem start_of_tracked_pointer (editor : Editor) (e : PointerEvent) (s : State) :
  JsMap.has (pointerId e) (activePointers s) = true ->
  let pointers := JsMap.set (pointerId e) e (activePointers s) in
  activePointers (fst (onPointerDown editor e s)) = pointers /\
  JsMap.get (pointerId e) pointers = Some e /\
  JsMap.keys pointers = JsMap.keys (activePointers s) /\
  (JsMap.size (activePointers s) <> 2%nat ->
   onPointerDown editor e s = (with_activePointers pointers s, [])) /\
  (forall p1 p2, JsMap.values pointers = [p1; p2] ->
   let center := getPointerCenter p1 p2 in
   onPointerDown editor e s
   = ({| activePointers := pointers;
         pinchState := NotSure;
         initDistanceBetweenFingers := getPointerDistance p1 p2;
         initZoom := getZoomLevel editor;
         currDistanceBetweenFingers := currDistanceBetweenFingers s;
         initPointBetweenFingers :=
           assignXY (initPointBetweenFingers s) (x center) (y center);
         prevPointBetweenFingers :=
           assignXY (prevPointBetweenFingers s) (x center) (y center) |},
      [Dispatch (PinchInfo
         (pinchInfo pinch_start
            {| x := x center; y := y center; z := Some (getZoomLevel editor) |}
            {| x := 0; y := 0; z := None |}
            e))])).
Proof.
  intros Hhas pointers. repeat split.
  - apply onPointerDown_pointers.
  - apply get_set_same.
  - now apply set_tracked_keys.
  - intros Hsize. apply onPointerDown_not_two.
    fold pointers. unfold pointers. now rewrite set_tracked_size.
  - intros p1 p2 Hvals. now apply onPointerDown_at_two.
Qed.

End Starts.

(** C9 as stated fails at two contacts: finger 1 is tracked and the session
    is zooming with initial spread 100; a second [pointerdown] of finger 1
    resets the mode, recomputes the initial spread and dispatches a
    [pinch_start]. *)
Lemma duplicate_start_restarts_session :
  let s := zoomingSession in
  let r := @onPointerDown demoHost plainEditor (finger 1 0 0) s in
  JsMap.has 1 (activePointers s) = true /\
  pinchState s = Zooming /\
  initDistanceBetweenFingers s = 100 /\
  pinchState (fst r) = NotSure /\
  initDistanceBetweenFingers (fst r) = 150 /\
  snd r
  = [Dispatch (PinchInfo
       (@pinchInfo demoHost pinch_start
          {| x := 75; y := 0; z := Some 1 |}
          {| x := 0; y := 0; z := None |}
          (finger 1 0 0)))] /\
  snd r <> [] /\
  fst r <> with_activePointers
             (JsMap.set 1 (finger 1 0 0) (activePointers s)) s.
Proof.
  repeat split; discriminate.
Qed.

(** C9 at one and at two contacts: a second [pointerdown] of the only finger
    just replaces its event; a second [pointerdown] of finger 2 of the
    zooming session starts the session again. *)
Lemma start_of_tracked_pointer_witness :
  @onPointerDown demoHost plainEditor (finger 1 5 5) oneFinger
  = (with_activePointers [(1%Z, finger 1 5 5)] oneFinger, []) /\
  pinchState
    (fst (@onPointerDown demoHost plainEditor (finger 2 150 0) zoomingSession))
  = NotSure.
Proof.
  split.
  - apply (proj1 (proj2 (proj2 (proj2
             (@start_of_tracked_pointer demoHost plainEditor (finger 1 5 5) oneFinger
                eq_refl))))).
    discriminate.
  - rewrite (proj2 (proj2 (proj2 (proj2
               (@start_of_tracked_pointer demoHost plainEditor (finger 2 150 0)
                  zoomingSession eq_refl))))
             (finger 1 0 0) (finger 2 150 0) eq_refl).
    reflexivity.
Defined.

(** ** Sessions without a move *)

Section Moveless.

Context `{Host}.

Lemma onPointerDown_currDistance (editor : Editor) (e : PointerEvent)
  (s : State) :
  currDistanceBetweenFingers (fst (onPointerDown editor e s))
  = currDistanceBetweenFingers s.
Proof.
  unfold onPointerDown. destruct (Nat.eqb _ 2); [|reflexivity].
  destruct (JsMap.values _) as [|p1 [|p2 rest]]; reflexivity.
Qed.

Lemma onPointerUp_currDistance (editor : Editor) (e : PointerEvent)
  (s : State) :
  currDistanceBetweenFingers (fst (onPointerUp editor e s))
  = currDistanceBetweenFingers s.
Proof. unfold onPointerUp. destruct (Nat.eqb _ 2); reflexivity. Qed.

Lemma onWheel_currDistance (editor : Editor) (e : WheelEvent) (s : State) :
  currDistanceBetweenFingers (fst (onWheel editor e s))
  = currDistanceBetweenFingers s.
Proof.
  unfold onWheel. destruct (negb _); [reflexivity|].
  destruct (scrollsEditingShape _); [reflexivity|].
  destruct (_ && _); reflexivity.
Qed.

(** [currDistanceBetweenFingers] is written by update steps only. *)
Lemma step_keeps_currDistance (editor : Editor) (ev : DomEvent) (w : World) :
  isSessionUpdate ev (hook w) = false ->
  currDistanceBetweenFingers (hook (fst (step editor ev w)))
  = currDistanceBetweenFingers (hook w).
Proof.
  intros Hev. rewrite step_hook. destruct ev as [e|e|e|e|e|]; simpl.
  - apply onPointerDown_currDistance.
  - simpl in Hev.
    destruct (JsMap.has (pointerId e) (activePointers (hook w))) eqn:Hhas.
    + simpl in Hev. apply Nat.eqb_neq in Hev.
      now rewrite (onPointerMove_outside_session _ _ _ Hhas Hev).
    + now rewrite (onPointerMove_untracked _ _ _ Hhas).
  - apply onPointerUp_currDistance.
  - apply onPointerUp_currDistance.
  - apply onWheel_currDistance.
  - reflexivity.
Qed.

Lemma run_keeps_currDistance (trace : list (Editor * DomEvent)) (w : World) :
  noSessionUpdate trace w = true ->
  currDistanceBetweenFingers (hook (fst (run trace w)))
  = currDistanceBetweenFingers (hook w).
Proof.
  revert w. induction trace as [|[editor ev] rest IH]; intros w Hall.
  - reflexivity.
  - simpl in Hall. apply andb_prop in Hall. destruct Hall as [Hev Hrest].
    rewrite run_cons, (IH _ Hrest).
    apply step_keeps_currDistance. now apply negb_true_iff in Hev.
Qed.

(** C10. A [pointerdown] that starts a session records the initial spread
    and leaves [currDistanceBetweenFingers] as it was; a release that
    follows with no move in between requests a [pinch_end] whose zoom is
    [initZoom * (leftover / initDistance) ** zoomSpeed], and the next frame
    dispatches it at the session's centre. When no update step has run
    since the hook was set up the leftover is the initial 0, and the zoom
    [initZoom * (0 / initDistance) ** zoomSpeed] is 0 for fingers apart, a
    positive finite zoom level and a positive exponent (given that the
    engine's [0 ** b] is 0 for positive [b]). *)
Theorem moveless_session_terminal_zoom (w : World)
  (editor0 editor1 editor2 : Editor) (eDown eUp p1 p2 : PointerEvent) :
  JsMap.values (JsMap.set (pointerId eDown) eDown (activePointers (hook w)))
  = [p1; p2] ->
  let leftover := currDistanceBetweenFingers (hook w) in
  let w1 := fst (step editor0 (PointerDownEv eDown) w) in
  let w2 := fst (step editor1 (PointerUpEv eUp) w1) in
  let terminal (d : float) :=
    getZoomLevel editor0
    * pow (d / getPointerDistance p1 p2) (zoomSpeed editor1) in
  let center := getPointerCenter p1 p2 in
  initDistanceBetweenFingers (hook w1) = getPointerDistance p1 p2 /\
  currDistanceBetweenFingers (hook w1) = leftover /\
  scheduled (snd (step editor1 (PointerUpEv eUp) w1))
  = [{| finalZoom := terminal leftover; releaseEvent := eUp |}] /\
  snd (step editor2 AnimationFrameEv w2)
  = map (fun cb => runPinchEnd cb (hook w2)) (pendingFrames w)
    ++ [Dispatch (PinchInfo
          (pinchInfo pinch_end
             {| x := x center; y := y center; z := Some (terminal leftover) |}
             {| x := x center; y := y center; z := None |}
             eUp))] /\
  (forall trace : list (Editor * DomEvent),
      noSessionUpdate trace initialWorld = true ->
      w = fst (run trace initialWorld) ->
      leftover = 0 /\
      ((0 <? getPointerDistance p1 p2) = true ->
       (0 <? getZoomLevel editor0) = true ->
       (getZoomLevel editor0 <? infinity) = true ->
       (0 <? zoomSpeed editor1) = true ->
       (forall b, (0 <? b) = true -> pow 0 b = 0) ->
       terminal leftover = 0)).
Proof.
  intros Hvals leftover w1 w2 terminal center.
  assert (Hw1 : w1 = {| hook := fst (onPointerDown editor0 eDown (hook w));
                        pendingFrames := pendingFrames w |}).
  { subst w1. simpl. rewrite (onPointerDown_at_two _ _ _ _ _ Hvals). simpl.
    now rewrite app_nil_r. }
  assert (Hsize : JsMap.size (activePointers (hook w1)) = 2%nat).
  { rewrite Hw1. simpl. rewrite onPointerDown_pointers, <- size_values, Hvals.
    reflexivity. }
  assert (Hup : step editor1 (PointerUpEv eUp) w1
                = ({| hook := fst (onPointerUp editor1 eUp (hook w1));
                      pendingFrames :=
                        pendingFrames w
                        ++ [{| finalZoom := terminal leftover;
                               releaseEvent := eUp |}] |},
                   [RequestAnimationFrame
                      {| finalZoom := terminal leftover;
                         releaseEvent := eUp |}])).
  { simpl. rewrite (onPointerUp_at_two _ _ _ Hsize). simpl.
    rewrite Hw1. simpl. rewrite (onPointerDown_at_two _ _ _ _ _ Hvals).
    reflexivity. }
  split; [|split; [|split; [|split]]].
  - rewrite Hw1. simpl. now rewrite (onPointerDown_at_two _ _ _ _ _ Hvals).
  - rewrite Hw1. simpl. apply onPointerDown_currDistance.
  - now rewrite Hup.
  - subst w2. rewrite Hup. simpl. rewrite map_app. simpl.
    rewrite (onPointerUp_at_two _ _ _ Hsize). simpl.
    rewrite Hw1. simpl. rewrite (onPointerDown_at_two _ _ _ _ _ Hvals).
    reflexivity.
  - intros trace Hquiet Hw.
    assert (Hzero : leftover = 0).
    { subst leftover. rewrite Hw.
      now rewrite (run_keeps_currDistance _ _ Hquiet). }
    split; [exact Hzero|].
    intros Hd Hzoom Hfinite Hspeed Hpow. subst terminal. simpl.
    rewrite Hzero, (zero_div_pos _ Hd), (Hpow _ Hspeed).
    now apply pos_finite_mul_zero.
Qed.

End Moveless.

(** C10 on the first session of a hook: finger 1 goes down and moves alone,
    finger 2 goes down at distance 100, finger 1 lifts. The requested
    [pinch_end] carries zoom 0 although the editor is at zoom 1. *)
Lemma moveless_session_terminal_zoom_witness :
  let trace :=
    [(plainEditor, PointerDownEv (finger 1 5 0));
     (plainEditor, PointerMoveEv (finger 1 0 0))] in
  let w := fst (run trace initialWorld) in
  let w1 := fst (step plainEditor (PointerDownEv (finger 2 100 0)) w) in
  initDistanceBetweenFingers (hook w1) = 100 /\
  currDistanceBetweenFingers (hook w1) = 0 /\
  scheduled (snd (step plainEditor (PointerUpEv (finger 1 0 0)) w1))
  = [{| finalZoom := 0; releaseEvent := finger 1 0 0 |}].
Proof.
  intros trace w w1.
  destruct (@moveless_session_terminal_zoom demoHost w
              plainEditor plainEditor plainEditor
              (finger 2 100 0) (finger 1 0 0) (finger 1 0 0) (finger 2 100 0)
              eq_refl)
    as (Hinit & Hcurr & Hsched & _ & Hfirst).
  destruct (Hfirst trace eq_refl eq_refl) as [Hzero Hterminal].
  assert (Hpow : forall b, (0 <? b) = true -> @pow demoHost 0 b = 0).
  { intros b Hb. simpl. unfold powModel. rewrite Hb. reflexivity. }
  specialize (Hterminal eq_refl eq_refl eq_refl eq_refl Hpow).
  split; [exact Hinit|]. split; [exact (eq_trans Hcurr Hzero)|].
  refine (eq_trans Hsched _).
  exact (f_equal
           (fun zoom => [{| finalZoom := zoom; releaseEvent := finger 1 0 0 |}])
           Hterminal).
Defined.

(** ** The pointer map over whole histories *)

Section MapInvariant.

Context {V : Type}.

Lemma distinctKeys_set (k : Z) (v : V) (m : JsMap.t V) :
  distinctKeys m = true -> distinctKeys (JsMap.set k v m) = true.
Proof.
  induction m as [|[k' v'] m IH]; simpl; [reflexivity|].
  intros Hm. apply andb_prop in Hm. destruct Hm as [Hfresh Hrest].
  destruct (Z.eqb k k') eqn:E; simpl.
  - now rewrite Hfresh, Hrest.
  - rewrite has_set, (IH Hrest), Z.eqb_sym, E. simpl.
    now rewrite Hfresh.
Qed.

Lemma distinctKeys_delete (k : Z) (m : JsMap.t V) :
  distinctKeys m = true -> distinctKeys (JsMap.delete k m) = true.
Proof.
  induction m as [|[k' v'] m IH]; simpl; [reflexivity|].
  intros Hm. apply andb_prop in Hm. destruct Hm as [Hfresh Hrest].
  destruct (Z.eqb k k'); simpl; [exact Hrest|].
  rewrite (IH Hrest), andb_true_r. apply negb_true_iff.
  apply has_delete. now apply negb_true_iff.
Qed.

(** With distinct keys, [delete] leaves no entry for the key. *)
Lemma has_delete_same (k : Z) (m : JsMap.t V) :
  distinctKeys m = true -> JsMap.has k (JsMap.delete k m) = false.
Proof.
  induction m as [|[k' v'] m IH]; simpl; [reflexivity|].
  intros Hm. apply andb_prop in Hm. destruct Hm as [Hfresh Hrest].
  destruct (Z.eqb k k') eqn:E; simpl.
  - apply Z.eqb_eq in E. subst k'. now apply negb_true_iff.
  - rewrite E. now apply IH.
Qed.

(** Storing under a fresh key and deleting it again gives the map back. *)
Lemma delete_set_fresh (k : Z) (v : V) (m : JsMap.t V) :
  JsMap.has k m = false -> JsMap.delete k (JsMap.set k v m) = m.
Proof.
  induction m as [|[k' v'] m IH]; simpl.
  - now rewrite Z.eqb_refl.
  - destruct (Z.eqb k k') eqn:E; [discriminate|]. intros Hk. simpl.
    rewrite E. now rewrite IH.
Qed.

End MapInvariant.

Section PointerMap.

Context `{Host}.

Lemma ownKeys_set (e : PointerEvent) (m : JsMap.t PointerEvent) :
  ownKeys m = true -> ownKeys (JsMap.set (pointerId e) e m) = true.
Proof.
  unfold ownKeys. induction m as [|[k' v'] m IH]; simpl.
  - now rewrite Z.eqb_refl.
  - intros Hm. apply andb_prop in Hm. destruct Hm as [Hown Hrest].
    destruct (Z.eqb (pointerId e) k') eqn:E; simpl.
    + rewrite Hrest, andb_true_r. now rewrite Z.eqb_sym.
    + now rewrite Hown, (IH Hrest).
Qed.

Lemma ownKeys_delete (k : Z) (m : JsMap.t PointerEvent) :
  ownKeys m = true -> ownKeys (JsMap.delete k m) = true.
Proof.
  unfold ownKeys. induction m as [|[k' v'] m IH]; simpl; [reflexivity|].
  intros Hm. apply andb_prop in Hm. destruct Hm as [Hown Hrest].
  destruct (Z.eqb k k'); simpl; [exact Hrest|].
  now rewrite Hown, (IH Hrest).
Qed.

Lemma wellKeyed_set (e : PointerEvent) (m : JsMap.t PointerEvent) :
  wellKeyed m = true -> wellKeyed (JsMap.set (pointerId e) e m) = true.
Proof.
  unfold wellKeyed. intros Hm. apply andb_prop in Hm.
  destruct Hm as [Hd Ho]. now rewrite distinctKeys_set, ownKeys_set.
Qed.

Lemma wellKeyed_delete (k : Z) (m : JsMap.t PointerEvent) :
  wellKeyed m = true -> wellKeyed (JsMap.delete k m) = true.
Proof.
  unfold wellKeyed. intros Hm. apply andb_prop in Hm.
  destruct Hm as [Hd Ho]. now rewrite distinctKeys_delete, ownKeys_delete.
Qed.

Lemma step_wellKeyed (editor : Editor) (ev : DomEvent) (w : World) :
  wellKeyed (activePointers (hook w)) = true ->
  wellKeyed (activePointers (hook (fst (step editor ev w)))) = true.
Proof.
  intros Hw. rewrite step_hook. destruct ev as [e|e|e|e|e|]; simpl.
  - rewrite onPointerDown_pointers. now apply wellKeyed_set.
  - rewrite onPointerMove_pointers.
    destruct (JsMap.has _ _); [now apply wellKeyed_set | exact Hw].
  - rewrite onPointerUp_pointers. now apply wellKeyed_delete.
  - rewrite onPointerUp_pointers. now apply wellKeyed_delete.
  - now rewrite onWheel_pointers.
  - exact Hw.
Qed.

Lemma run_wellKeyed (trace : list (Editor * DomEvent)) (w : World) :
  wellKeyed (activePointers (hook w)) = true ->
  wellKeyed (activePointers (hook (fst (run trace w)))) = true.
Proof.
  revert w. induction trace as [|[editor ev] rest IH]; intros w Hw.
  - exact Hw.
  - rewrite run_cons. apply IH. now apply step_wellKeyed.
Qed.

(** X1. After any history of events the pointer map has pairwise distinct
    keys and every stored event is filed under its own [pointerId]. *)
Theorem pointer_map_well_keyed (trace : list (Editor * DomEvent)) :
  wellKeyed (activePointers (hook (fst (run trace initialWorld)))) = true.
Proof. now apply run_wellKeyed. Qed.

(** X2. After any history, a [pointerup] or [pointercancel] leaves its
    pointer untracked, and a later [pointermove] of that pointer, wherever
    it points, is ignored. *)
Theorem release_untracks (trace : list (Editor * DomEvent))
  (editor editor' : Editor) (e : PointerEvent) (later : MouseEvent) :
  let w := fst (run trace initialWorld) in
  let released := fst (step editor (PointerUpEv e) w) in
  let cancelled := fst (step editor (PointerCancelEv e) w) in
  let move := {| pointerId := pointerId e; pointerMouse := later |} in
  JsMap.has (pointerId e) (activePointers (hook released)) = false /\
  JsMap.has (pointerId e) (activePointers (hook cancelled)) = false /\
  step editor' (PointerMoveEv move) released = (released, []).
Proof.
  intros w released cancelled move.
  assert (Hd : distinctKeys (activePointers (hook w)) = true).
  { pose proof (run_wellKeyed trace initialWorld eq_refl) as Hw.
    unfold wellKeyed in Hw. now apply andb_prop in Hw. }
  assert (Hreleased :
            JsMap.has (pointerId e) (activePointers (hook released)) = false).
  { subst released. rewrite step_hook. simpl. rewrite onPointerUp_pointers.
    now apply has_delete_same. }
  split; [exact Hreleased|]. split.
  - subst cancelled. rewrite step_hook. simpl. rewrite onPointerUp_pointers.
    now apply has_delete_same.
  - assert (Hmove : JsMap.has (pointerId move) (activePointers (hook released))
                    = false) by exact Hreleased.
    simpl. rewrite (onPointerMove_untracked _ _ _ Hmove). simpl.
    rewrite app_nil_r. now destruct released.
Qed.

(** X3. The number of stored pointers: a [pointerdown] adds one unless its
    pointer is tracked, a [pointermove] never changes it, a release removes
    one if its pointer is tracked. *)
Theorem contact_count (editor : Editor) (e : PointerEvent) (s : State) :
  let n := JsMap.size (activePointers s) in
  let tracked := JsMap.has (pointerId e) (activePointers s) in
  JsMap.size (activePointers (fst (onPointerDown editor e s)))
  = (if tracked then n else S n) /\
  JsMap.size (activePointers (fst (onPointerMove editor e s))) = n /\
  JsMap.size (activePointers (fst (onPointerUp editor e s)))
  = (if tracked then Nat.pred n else n).
Proof.
  intros n tracked. subst n tracked.
  rewrite onPointerDown_pointers, onPointerMove_pointers, onPointerUp_pointers.
  destruct (JsMap.has (pointerId e) (activePointers s)) eqn:Hhas.
  - rewrite (set_tracked_size _ _ _ Hhas).
    pose proof (delete_tracked_size _ _ Hhas) as Hdel.
    repeat split. rewrite <- Hdel. reflexivity.
  - rewrite (set_fresh_size _ _ _ Hhas), (delete_untracked _ _ Hhas).
    repeat split.
Qed.

(** X4. A tap of a pointer that is not tracked, while the number of stored
    pointers is not one: the [pointerdown] and the release that follows
    dispatch nothing, request nothing, and give back the state exactly. *)
Theorem lone_tap_leaves_no_trace (editor editor' : Editor) (e e' : PointerEvent)
  (s : State) :
  JsMap.has (pointerId e) (activePointers s) = false ->
  JsMap.size (activePointers s) <> 1%nat ->
  pointerId e' = pointerId e ->
  snd (onPointerDown editor e s) = [] /\
  onPointerUp editor' e' (fst (onPointerDown editor e s)) = (s, []).
Proof.
  intros Hfresh Hsize Hid.
  assert (Hnot2 : JsMap.size (JsMap.set (pointerId e) e (activePointers s))
                  <> 2%nat).
  { rewrite (set_fresh_size _ _ _ Hfresh). intros E. apply Hsize.
    now injection E. }
  rewrite (onPointerDown_not_two _ _ _ Hnot2). simpl. split; [reflexivity|].
  rewrite onPointerUp_outside_session by exact Hnot2.
  simpl. rewrite Hid, (delete_set_fresh _ _ _ Hfresh). now destruct s.
Qed.

End PointerMap.

(** X4 on the empty hook and on the two-finger session: finger 7 taps and
    nothing is left of it. *)
Lemma lone_tap_leaves_no_trace_witness :
  @onPointerUp demoHost plainEditor (finger 7 9 9)
    (fst (@onPointerDown demoHost plainEditor (finger 7 3 3) initialState))
  = (initialState, []) /\
  @onPointerUp demoHost plainEditor (finger 7 9 9)
    (fst (@onPointerDown demoHost plainEditor (finger 7 3 3) twoFingers))
  = (twoFingers, []).
Proof.
  split.
  - apply (@lone_tap_leaves_no_trace demoHost plainEditor plainEditor
             (finger 7 3 3) (finger 7 9 9) initialState);
      [reflexivity | discriminate | reflexivity].
  - apply (@lone_tap_leaves_no_trace demoHost plainEditor plainEditor
             (finger 7 3 3) (finger 7 9 9) twoFingers);
      [reflexivity | discriminate | reflexivity].
Defined.

(** ** What the listeners emit *)

Section Emissions.

Context `{Host}.

Lemma run_app (t1 t2 : list (Editor * DomEvent)) (w : World) :
  run (t1 ++ t2) w
  = (fst (run t2 (fst (run t1 w))),
     snd (run t1 w) ++ snd (run t2 (fst (run t1 w)))).
Proof.
  revert w. induction t1 as [|[editor ev] rest IH]; intros w; simpl.
  - now destruct (run t2 w).
  - destruct (step editor ev w) as [w1 effects1]. rewrite IH.
    destruct (run rest w1) as [w2 effects2]. simpl.
    now rewrite app_assoc.
Qed.

Lemma run_cons_effects (editor : Editor) (ev : DomEvent)
  (rest : list (Editor * DomEvent)) (w : World) :
  snd (run ((editor, ev) :: rest) w)
  = snd (step editor ev w) ++ snd (run rest (fst (step editor ev w))).
Proof.
  simpl. destruct (step editor ev w) as [w1 effects1]. simpl.
  now destruct (run rest w1).
Qed.

Lemma pinchNames_app (a b : list Effect) :
  pinchNames (a ++ b) = pinchNames a ++ pinchNames b.
Proof.
  induction a as [|effect a IH]; simpl; [reflexivity|].
  destruct effect as [[info|info]|cb| |]; simpl; now rewrite ?IH.
Qed.

Lemma scheduled_app (a b : list Effect) :
  scheduled (a ++ b) = scheduled a ++ scheduled b.
Proof.
  induction a as [|effect a IH]; simpl; [reflexivity|].
  destruct effect; simpl; now rewrite ?IH.
Qed.

Lemma countPinchEnds_app (a b : list Effect) :
  countPinchEnds (a ++ b) = (countPinchEnds a + countPinchEnds b)%nat.
Proof.
  unfold countPinchEnds. now rewrite pinchNames_app, filter_app, length_app.
Qed.

(** The effects of each pointer listener, whatever the state. *)
Lemma onPointerDown_effects (editor : Editor) (e : PointerEvent) (s : State) :
  snd (onPointerDown editor e s) = [] \/
  exists pt dl,
    snd (onPointerDown editor e s)
    = [Dispatch (PinchInfo (pinchInfo pinch_start pt dl e))].
Proof.
  unfold onPointerDown. destruct (Nat.eqb _ 2); [|now left].
  destruct (JsMap.values _) as [|p1 [|p2 rest]]; try (now left).
  right. now eexists _, _.
Qed.

Lemma onPointerMove_effects (editor : Editor) (e : PointerEvent) (s : State) :
  snd (onPointerMove editor e s) = [] \/
  exists pt dl,
    snd (onPointerMove editor e s)
    = [Dispatch (PinchInfo (pinchInfo pinch pt dl e))].
Proof.
  unfold onPointerMove. destruct (negb _); [now left|].
  destruct (Nat.eqb _ 2); [|now left].
  destruct (JsMap.values _) as [|p1 [|p2 rest]]; try (now left).
  destruct (pinchState (updatePinchState _)); simpl.
  - now left.
  - right. now eexists _, _.
  - right. now eexists _, _.
Qed.

Lemma onPointerUp_effects (editor : Editor) (e : PointerEvent) (s : State) :
  snd (onPointerUp editor e s) = [] \/
  exists cb, snd (onPointerUp editor e s) = [RequestAnimationFrame cb].
Proof.
  unfold onPointerUp. destruct (Nat.eqb _ 2); [|now left].
  right. now eexists.
Qed.


Lemma frame_effects_count (s : State) (pending : list PinchEndCallback) :
  countPinchEnds (map (fun cb => runPinchEnd cb s) pending) = length pending /\
  scheduled (map (fun cb => runPinchEnd cb s) pending) = [].
Proof.
  unfold countPinchEnds.
  induction pending as [|cb pending [IHn IHs]]; simpl; [now split|].
  now rewrite IHn, IHs.
Qed.


Lemma step_accounting (editor : Editor) (ev : DomEvent) (w : World) :
  (countPinchEnds (snd (step editor ev w))
   + length (pendingFrames (fst (step editor ev w))))%nat
  = (length (pendingFrames w)
     + length (scheduled (snd (step editor ev w))))%nat.
Proof.
  destruct ev as [e|e|e|e|e|]; simpl.
  - destruct (onPointerDown editor e (hook w)) as [s' effects] eqn:E.
    pose proof (onPointerDown_effects editor e (hook w)) as Hshape.
    rewrite E in Hshape. simpl in *.
    destruct Hshape as [-> | (pt & dl & ->)]; simpl;
      now rewrite app_nil_r, Nat.add_0_r.
  - destruct (onPointerMove editor e (hook w)) as [s' effects] eqn:E.
    pose proof (onPointerMove_effects editor e (hook w)) as Hshape.
    rewrite E in Hshape. simpl in *.
    destruct Hshape as [-> | (pt & dl & ->)]; simpl;
      now rewrite app_nil_r, Nat.add_0_r.
  - destruct (onPointerUp editor e (hook w)) as [s' effects] eqn:E.
    pose proof (onPointerUp_effects editor e (hook w)) as Hshape.
    rewrite E in Hshape. simpl in *.
    destruct Hshape as [-> | (cb & ->)]; simpl;
      rewrite ?app_nil_r, ?length_app; simpl; lia.
  - destruct (onPointerUp editor e (hook w)) as [s' effects] eqn:E.
    pose proof (onPointerUp_effects editor e (hook w)) as Hshape.
    rewrite E in Hshape. simpl in *.
    destruct Hshape as [-> | (cb & ->)]; simpl;
      rewrite ?app_nil_r, ?length_app; simpl; lia.
  - unfold onWheel. destruct (negb _); simpl;
      [now rewrite app_nil_r, Nat.add_0_r|].
    destruct (scrollsEditingShape editor); simpl;
      [now rewrite app_nil_r, Nat.add_0_r|].
    destruct (_ && _); simpl; now rewrite app_nil_r, Nat.add_0_r.
  - destruct (frame_effects_count (hook w) (pendingFrames w)) as [-> ->].
    simpl. lia.
Qed.

(** X6. Over any history, every requested frame callback is accounted for:
    the [pinch_end] events dispatched so far plus the callbacks still
    pending equal the callbacks pending at the start plus those requested
    since. No [pinch_end] is dispatched without a request and none twice. *)
Theorem pinch_end_accounting (trace : list (Editor * DomEvent)) (w : World) :
  (countPinchEnds (snd (run trace w))
   + length (pendingFrames (fst (run trace w))))%nat
  = (length (pendingFrames w) + length (scheduled (snd (run trace w))))%nat.
Proof.
  revert w. induction trace as [|[editor ev] rest IH]; intros w.
  - simpl. lia.
  - rewrite run_cons, run_cons_effects, countPinchEnds_app, scheduled_app,
      length_app.
    pose proof (step_accounting editor ev w) as Hstep.
    pose proof (IH (fst (step editor ev w))) as Hrest. lia.
Qed.

End Emissions.

(** ** Sessions over whole histories *)

Section Sessions.

Context `{Host}.

Lemma has_keys {V : Type} (k : Z) (m : JsMap.t V) :
  JsMap.has k m = existsb (Z.eqb k) (JsMap.keys m).
Proof.
  induction m as [|[k' v'] m IH]; simpl; [reflexivity|].
  rewrite IH. now destruct (Z.eqb k k').
Qed.

Lemma size_keys {V : Type} (m : JsMap.t V) :
  JsMap.size m = length (JsMap.keys m).
Proof. unfold JsMap.size, JsMap.keys. now rewrite length_map. Qed.

(** A move never changes which pointers are tracked. *)
Lemma onPointerMove_keys (editor : Editor) (e : PointerEvent) (s : State) :
  JsMap.keys (activePointers (fst (onPointerMove editor e s)))
  = JsMap.keys (activePointers s).
Proof.
  rewrite onPointerMove_pointers.
  destruct (JsMap.has (pointerId e) (activePointers s)) eqn:Hhas;
    [|reflexivity].
  now apply set_tracked_keys.
Qed.

Lemma updatePinchState_decided (s : State) :
  pinchState s <> NotSure -> pinchState (updatePinchState s) <> NotSure.
Proof.
  unfold updatePinchState. destruct (pinchState s) eqn:E; intros Hd.
  - now contradiction Hd.
  - now rewrite E.
  - destruct (64 <? _); simpl; [discriminate | now rewrite E].
Qed.

Lemma onPointerMove_keeps_decided (editor : Editor) (e : PointerEvent)
  (s : State) :
  pinchState s <> NotSure ->
  pinchState (fst (onPointerMove editor e s)) <> NotSure.
Proof.
  intros Hd. unfold onPointerMove.
  destruct (negb (JsMap.has (pointerId e) (activePointers s))); [exact Hd|].
  destruct (Nat.eqb _ 2); [|exact Hd].
  destruct (JsMap.values _) as [|p1 [|p2 rest]]; try exact Hd.
  pose proof (updatePinchState_decided
                (recordGeometry (JsMap.set (pointerId e) e (activePointers s))
                   p1 p2 s) Hd) as Hd'.
  destruct (pinchState (updatePinchState _)) eqn:E; simpl; now rewrite E.
Qed.

(** An update step from a decided mode dispatches exactly one [pinch]. *)
Lemma decided_update_names (editor : Editor) (e : PointerEvent) (s : State) :
  pinchState s <> NotSure ->
  JsMap.has (pointerId e) (activePointers s) = true ->
  JsMap.size (activePointers s) = 2%nat ->
  pinchNames (snd (onPointerMove editor e s)) = [pinch].
Proof.
  intros Hd Hhas Hsize.
  destruct (values_of_two (JsMap.set (pointerId e) e (activePointers s)))
    as (p1 & p2 & Hvals);
    [now rewrite set_tracked_size|].
  rewrite (onPointerMove_session _ _ _ _ _ Hhas Hvals). simpl.
  pose proof (updatePinchState_decided
                (recordGeometry (JsMap.set (pointerId e) e (activePointers s))
                   p1 p2 s) Hd) as Hd'.
  destruct (pinchState (updatePinchState _)); [now contradiction Hd'| |];
    reflexivity.
Qed.

(** X7. Once a session has decided between zooming and panning, every move
    of one of its two fingers dispatches exactly one [pinch]: a run of [n]
    such moves dispatches [n] of them, nothing else, and ends decided. *)
Theorem decided_session_reports_every_move
  (moves : list (Editor * PointerEvent)) (w : World) :
  pinchState (hook w) <> NotSure ->
  JsMap.size (activePointers (hook w)) = 2%nat ->
  forallb (fun move => JsMap.has (pointerId (snd move))
                         (activePointers (hook w))) moves = true ->
  pinchNames (snd (run (movesTrace moves) w)) = repeat pinch (length moves) /\
  length (snd (run (movesTrace moves) w)) = length moves /\
  pinchState (hook (fst (run (movesTrace moves) w))) <> NotSure.
Proof.
  revert w. induction moves as [|[editor e] rest IH]; intros w Hd Hsize Hall.
  - now repeat split.
  - simpl in Hall. apply andb_prop in Hall. destruct Hall as [Hhas Hrest].
    unfold movesTrace. simpl map. fold (movesTrace rest).
    rewrite run_cons, run_cons_effects, pinchNames_app, length_app.
    set (w1 := fst (step editor (PointerMoveEv e) w)).
    assert (Hhook : hook w1 = fst (onPointerMove editor e (hook w)))
      by (subst w1; now rewrite step_hook).
    assert (Heffects : snd (step editor (PointerMoveEv e) w)
                       = snd (onPointerMove editor e (hook w))).
    { simpl. now destruct (onPointerMove editor e (hook w)). }
    assert (Hkeys : JsMap.keys (activePointers (hook w1))
                    = JsMap.keys (activePointers (hook w)))
      by (rewrite Hhook; apply onPointerMove_keys).
    destruct (IH w1) as (Hnames & Hlen & Hlast).
    + rewrite Hhook. now apply onPointerMove_keeps_decided.
    + now rewrite size_keys, Hkeys, <- size_keys.
    + apply forallb_forall. intros move Hin.
      rewrite has_keys, Hkeys, <- has_keys.
      exact (proj1 (forallb_forall _ _) Hrest move Hin).
    + rewrite Heffects, Hnames, Hlen,
        (decided_update_names _ _ _ Hd Hhas Hsize).
      pose proof (decided_update_names editor e (hook w) Hd Hhas Hsize)
        as Hone.
      destruct (onPointerMove_effects editor e (hook w))
        as [Hnone | (pt & dl & Hsome)].
      * rewrite Hnone in Hone. discriminate Hone.
      * rewrite Hsome. now repeat split.
Qed.

Lemma step_move_pending (editor : Editor) (e : PointerEvent) (w : World) :
  pendingFrames (fst (step editor (PointerMoveEv e) w)) = pendingFrames w.
Proof.
  simpl.
  destruct (onPointerMove_effects editor e (hook w))
    as [Hnone | (pt & dl & Hsome)];
    destruct (onPointerMove editor e (hook w)) as [s' effects];
    simpl in *; subst effects; simpl; apply app_nil_r.
Qed.

(** Moves while two pointers are stored: the count and the pending
    callbacks stay, nothing is requested, and the dispatched events are
    [pinch] events, at most one per move. *)
Lemma moves_in_session (moves : list (Editor * PointerEvent)) (w : World) :
  JsMap.size (activePointers (hook w)) = 2%nat ->
  JsMap.size (activePointers (hook (fst (run (movesTrace moves) w)))) = 2%nat /\
  pendingFrames (fst (run (movesTrace moves) w)) = pendingFrames w /\
  exists k,
    k <= length moves /\
    pinchNames (snd (run (movesTrace moves) w)) = repeat pinch k.
Proof.
  revert w. induction moves as [|[editor e] rest IH]; intros w Hsize.
  - repeat split; try assumption. exists 0%nat. now split.
  - unfold movesTrace. simpl map. fold (movesTrace rest).
    rewrite run_cons, run_cons_effects, pinchNames_app.
    set (w1 := fst (step editor (PointerMoveEv e) w)).
    assert (Hhook : hook w1 = fst (onPointerMove editor e (hook w)))
      by (subst w1; now rewrite step_hook).
    assert (Heffects : snd (step editor (PointerMoveEv e) w)
                       = snd (onPointerMove editor e (hook w))).
    { simpl. now destruct (onPointerMove editor e (hook w)). }
    assert (Hpending : pendingFrames w1 = pendingFrames w)
      by (subst w1; apply step_move_pending).
    destruct (IH w1) as (Hsize' & Hpending' & k & Hk & Hnames).
    { rewrite Hhook, size_keys, onPointerMove_keys, <- size_keys.
      exact Hsize. }
    split; [exact Hsize'|]. split; [now rewrite Hpending'|].
    rewrite Heffects, Hnames.
    destruct (onPointerMove_effects editor e (hook w))
      as [Hnone | (pt & dl & Hsome)].
    + rewrite Hnone. exists k. simpl. split; [lia | reflexivity].
    + rewrite Hsome. exists (S k). simpl. split; [lia | reflexivity].
Qed.

(** X8. A whole two-finger gesture on a fresh hook: two different pointers
    go down, any number of moves follow, a pointer is released and a frame
    fires. The pinch events dispatched are one [pinch_start], then only
    [pinch] events, at most one per move, then one [pinch_end]. *)
Theorem gesture_is_bracketed (editorA editorB editorUp editorFrame : Editor)
  (a b c : PointerEvent) (moves : list (Editor * PointerEvent)) :
  pointerId a <> pointerId b ->
  let trace :=
    (editorA, PointerDownEv a) :: (editorB, PointerDownEv b)
    :: movesTrace moves
    ++ [(editorUp, PointerUpEv c); (editorFrame, AnimationFrameEv)] in
  exists k,
    k <= length moves /\
    pinchNames (snd (run trace initialWorld))
    = pinch_start :: repeat pinch k ++ [pinch_end] /\
    pendingFrames (fst (run trace initialWorld)) = [].
Proof.
  intros Hab trace. subst trace.
  assert (Hfresh : Z.eqb (pointerId b) (pointerId a) = false).
  { apply Z.eqb_neq. intros E. apply Hab. now symmetry. }
  pose (start := [(editorA, PointerDownEv a); (editorB, PointerDownEv b)]).
  pose (finish :=
          [(editorUp, PointerUpEv c); (editorFrame, AnimationFrameEv)]).
  assert (Hw2 : JsMap.size (activePointers (hook (fst (run start initialWorld))))
                = 2%nat
                /\ pendingFrames (fst (run start initialWorld)) = []
                /\ pinchNames (snd (run start initialWorld)) = [pinch_start]).
  { subst start. simpl. unfold onPointerDown. simpl. rewrite Hfresh. simpl.
    repeat split. }
  destruct Hw2 as (Hsize2 & Hpending2 & Hnames2).
  destruct (moves_in_session moves (fst (run start initialWorld)) Hsize2)
    as (Hsize3 & Hpending3 & k & Hk & Hnames3).
  exists k. split; [exact Hk|].
  assert (Htrace : forall rest,
             (editorA, PointerDownEv a) :: (editorB, PointerDownEv b) :: rest
             = start ++ rest) by reflexivity.
  rewrite Htrace. fold finish.
  rewrite (run_app start), (run_app (movesTrace moves)).
  cbv beta iota delta [fst snd].
  fold (fst (run start initialWorld)).
  fold (fst (run (movesTrace moves) (fst (run start initialWorld)))).
  fold (snd (run start initialWorld)).
  fold (snd (run (movesTrace moves) (fst (run start initialWorld)))).
  set (w3 := fst (run (movesTrace moves) (fst (run start initialWorld)))) in *.
  assert (Hend :
            run finish w3
            = ({| hook := fst (onPointerUp editorUp c (hook w3));
                  pendingFrames := [] |},
               snd (onPointerUp editorUp c (hook w3))
               ++ [runPinchEnd
                     {| finalZoom :=
                          initZoom (hook w3)
                          * pow (currDistanceBetweenFingers (hook w3)
                                 / initDistanceBetweenFingers (hook w3))
                              (zoomSpeed editorUp);
                        releaseEvent := c |}
                     (fst (onPointerUp editorUp c (hook w3)))])).
  { subst finish. simpl. rewrite (onPointerUp_at_two _ _ _ Hsize3). simpl.
    rewrite Hpending3, Hpending2. reflexivity. }
  rewrite Hend, !pinchNames_app, Hnames2, Hnames3,
    (onPointerUp_at_two _ _ _ Hsize3).
  split; reflexivity.
Qed.

End Sessions.

(** X7 on the zooming session: three moves of its fingers, three [pinch]
    events. *)
Lemma decided_session_reports_every_move_witness :
  let moves :=
    [(plainEditor, finger 2 100 0); (plainEditor, finger 1 40 0);
     (plainEditor, finger 2 140 0)] in
  let w := {| hook := zoomingSession; pendingFrames := [] |} in
  pinchNames (snd (run (movesTrace moves) w)) = [pinch; pinch; pinch] /\
  length (snd (run (movesTrace moves) w)) = 3%nat /\
  pinchState (hook (fst (run (movesTrace moves) w))) <> NotSure.
Proof.
  intros moves w.
  apply (@decided_session_reports_every_move demoHost moves w);
    [discriminate | reflexivity | reflexivity].
Defined.

(** X8 on fingers 1 and 2: a move that stays undecided, a move that starts
    panning, the release of finger 1 and a frame. *)
Lemma gesture_is_bracketed_witness :
  let moves := [(plainEditor, finger 1 20 0); (plainEditor, finger 2 120 0)] in
  let trace :=
    (plainEditor, PointerDownEv (finger 1 0 0))
    :: (plainEditor, PointerDownEv (finger 2 100 0))
    :: movesTrace moves
    ++ [(plainEditor, PointerUpEv (finger 1 20 0));
        (plainEditor, AnimationFrameEv)] in
  exists k,
    k <= 2 /\
    pinchNames (snd (run trace initialWorld))
    = pinch_start :: repeat pinch k ++ [pinch_end] /\
    pendingFrames (fst (run trace initialWorld)) = [].
Proof.
  intros moves trace.
  apply (@gesture_is_bracketed demoHost plainEditor plainEditor plainEditor
           plainEditor (finger 1 0 0) (finger 2 100 0) (finger 1 20 0) moves).
  discriminate.
Defined.

(** ** What stays fixed *)

Section Frames.

Context `{Host}.

Lemma onWheel_frame (editor : Editor) (e : WheelEvent) (s : State) :
  fst (onWheel editor e s) = s \/
  fst (onWheel editor e s) = with_pinchState NotSure s.
Proof.
  unfold onWheel. destruct (negb _); [now left|]. right.
  destruct (scrollsEditingShape _); [reflexivity|].
  destruct (_ && _); reflexivity.
Qed.

(** X9. With three or more pointers stored, no pointer event dispatches or
    requests anything, and it changes the pointer map only: the mode and the
    session's measurements stay as they are, and at least two pointers stay
    stored. In particular a release from three to two neither ends the old
    session nor starts a new one. *)
Theorem third_contact_freezes_gesture (editor : Editor) (ev : DomEvent)
  (s : State) :
  3 <= JsMap.size (activePointers s) ->
  isPointerEvent ev = true ->
  snd (handle editor ev s) = [] /\
  fst (handle editor ev s)
  = with_activePointers (activePointers (fst (handle editor ev s))) s /\
  2 <= JsMap.size (activePointers (fst (handle editor ev s))).
Proof.
  intros Hsize Hev.
  assert (Hnot2 : JsMap.size (activePointers s) <> 2%nat) by lia.
  destruct ev as [e|e|e|e|e|]; try discriminate Hev; simpl.
  - destruct (JsMap.has (pointerId e) (activePointers s)) eqn:Hhas.
    + rewrite onPointerDown_not_two
        by (rewrite (set_tracked_size _ _ _ Hhas); exact Hnot2).
      simpl. rewrite (set_tracked_size _ _ _ Hhas). repeat split. lia.
    + rewrite onPointerDown_not_two
        by (rewrite (set_fresh_size _ _ _ Hhas); lia).
      simpl. rewrite (set_fresh_size _ _ _ Hhas). repeat split. lia.
  - destruct (JsMap.has (pointerId e) (activePointers s)) eqn:Hhas.
    + rewrite (onPointerMove_outside_session _ _ _ Hhas Hnot2). simpl.
      rewrite (set_tracked_size _ _ _ Hhas). repeat split. lia.
    + rewrite (onPointerMove_untracked _ _ _ Hhas). simpl.
      repeat split; [now destruct s | lia].
  - rewrite (onPointerUp_outside_session _ _ _ Hnot2). simpl.
    repeat split.
    destruct (JsMap.has (pointerId e) (activePointers s)) eqn:Hhas.
    + pose proof (delete_tracked_size _ _ Hhas). lia.
    + rewrite (delete_untracked _ _ Hhas). lia.
  - rewrite (onPointerUp_outside_session _ _ _ Hnot2). simpl.
    repeat split.
    destruct (JsMap.has (pointerId e) (activePointers s)) eqn:Hhas.
    + pose proof (delete_tracked_size _ _ Hhas). lia.
    + rewrite (delete_untracked _ _ Hhas). lia.
Qed.

End Frames.

(** X9 on the zooming session joined by a third finger: finger 2 moves,
    then lifts; nothing is emitted and two pointers stay stored. *)
Lemma third_contact_freezes_gesture_witness :
  snd (@handle demoHost plainEditor (PointerMoveEv (finger 2 300 0))
         threeFingers) = [] /\
  snd (@handle demoHost plainEditor (PointerUpEv (finger 2 300 0))
         threeFingers) = [] /\
  pinchState
    (fst (@handle demoHost plainEditor (PointerUpEv (finger 2 300 0))
            threeFingers)) = Zooming /\
  2 <= JsMap.size
         (activePointers
            (fst (@handle demoHost plainEditor (PointerUpEv (finger 2 300 0))
                    threeFingers))).
Proof.
  pose proof (@third_contact_freezes_gesture demoHost plainEditor
                (PointerMoveEv (finger 2 300 0)) threeFingers
                (le_n 3) eq_refl) as [Hmove _].
  pose proof (@third_contact_freezes_gesture demoHost plainEditor
                (PointerUpEv (finger 2 300 0)) threeFingers
                (le_n 3) eq_refl) as (Hup & Hstate & Hcount).
  split; [exact Hmove|]. split; [exact Hup|]. split; [|exact Hcount].
  rewrite Hstate. reflexivity.
Defined.

Section Reference.

Context `{Host}.

Lemma handle_keeps_reference (editor : Editor) (ev : DomEvent) (s : State) :
  isPointerDown ev = false ->
  initDistanceBetweenFingers (fst (handle editor ev s))
  = initDistanceBetweenFingers s /\
  initZoom (fst (handle editor ev s)) = initZoom s /\
  initPointBetweenFingers (fst (handle editor ev s))
  = initPointBetweenFingers s.
Proof.
  intros Hev. destruct ev as [e|e|e|e|e|]; try discriminate Hev; simpl.
  - unfold onPointerMove. destruct (negb _); [now repeat split|].
    destruct (Nat.eqb _ 2); [|now repeat split].
    destruct (JsMap.values _) as [|p1 [|p2 rest]]; try (now repeat split).
    destruct (pinchState (updatePinchState _)) eqn:E; simpl;
      rewrite updatePinchState_frame; now repeat split.
  - unfold onPointerUp. destruct (Nat.eqb _ 2); now repeat split.
  - unfold onPointerUp. destruct (Nat.eqb _ 2); now repeat split.
  - destruct (onWheel_frame editor e s) as [-> | ->]; now repeat split.
  - now repeat split.
Qed.

(** X10. The session's reference values are written by [pointerdown] only:
    over any history without a [pointerdown] (moves, releases, wheel events
    and frames, under any editor states) [initDistanceBetweenFingers],
    [initZoom] and [initPointBetweenFingers] keep their values, so the zoom
    dispatched during a session is measured against the zoom level read at
    its start even if the editor's zoom level changes. *)
Theorem session_reference_is_fixed (trace : list (Editor * DomEvent))
  (w : World) :
  forallb (fun step => negb (isPointerDown (snd step))) trace = true ->
  initDistanceBetweenFingers (hook (fst (run trace w)))
  = initDistanceBetweenFingers (hook w) /\
  initZoom (hook (fst (run trace w))) = initZoom (hook w) /\
  initPointBetweenFingers (hook (fst (run trace w)))
  = initPointBetweenFingers (hook w).
Proof.
  revert w. induction trace as [|[editor ev] rest IH]; intros w Hall.
  - now repeat split.
  - simpl in Hall. apply andb_prop in Hall. destruct Hall as [Hev Hrest].
    apply negb_true_iff in Hev. rewrite run_cons.
    destruct (IH (fst (step editor ev w)) Hrest) as (Hd & Hz & Hp).
    rewrite Hd, Hz, Hp, step_hook.
    now apply handle_keeps_reference.
Qed.











End Reference.

(** X10 on the zooming session: moves, a wheel event and a release under an
    editor now zoomed to 4 leave the reference spread 100 and zoom 1. *)
Lemma session_reference_is_fixed_witness :
  let trace :=
    [(zoomedEditor, PointerMoveEv (finger 2 170 0));
     (zoomedEditor, WheelEv (wheelTick 0 3));
     (zoomedEditor, PointerMoveEv (finger 1 10 0));
     (zoomedEditor, PointerUpEv (finger 1 10 0));
     (zoomedEditor, AnimationFrameEv)] in
  let w := {| hook := zoomingSession; pendingFrames := [] |} in
  initDistanceBetweenFingers (hook (fst (run trace w))) = 100 /\
  initZoom (hook (fst (run trace w))) = 1 /\
  initPointBetweenFingers (hook (fst (run trace w))) = newVecXY 50 0.
Proof.
  intros trace w.
  exact (@session_reference_is_fixed demoHost trace w eq_refl).
Defined.


(** ** The geometry of a pair, in binary64 *)

Section RoundingSign.

Variables prec emax : Z.

(** Rounding keeps the sign it is given: magnitude and sign are computed
    apart. *)
Lemma binary_round_aux_abs (s : bool) (m e : Z) (l : location) :
  SFabs (binary_round_aux prec emax s m e l)
  = SFabs (binary_round_aux prec emax false m e l).
Proof.
  unfold binary_round_aux.
  destruct (shr_fexp prec emax m e l) as [mrs' e'].
  destruct (shr_fexp prec emax _ e' loc_Exact) as [mrs'' e''].
  destruct (shr_m mrs''); try reflexivity.
  destruct (Z.leb e'' (Z.sub emax prec)); reflexivity.
Qed.

Lemma binary_round_aux_not_negative (m e : Z) (l : location) :
  SFltb (binary_round_aux prec emax false m e l) (S754_zero false) = false.
Proof.
  unfold binary_round_aux.
  destruct (shr_fexp prec emax m e l) as [mrs' e'].
  destruct (shr_fexp prec emax _ e' loc_Exact) as [mrs'' e''].
  destruct (shr_m mrs''); try reflexivity.
  destruct (Z.leb e'' (Z.sub emax prec)); reflexivity.
Qed.

Lemma binary_normalize_opp_abs (m e : Z) :
  SFabs (binary_normalize prec emax (Z.opp m) e false)
  = SFabs (binary_normalize prec emax m e false).
Proof.
  destruct m as [|p|p]; simpl; try reflexivity; unfold binary_round;
    destruct (shl_align _ _ _) as [mz ez];
    rewrite (binary_round_aux_abs true); reflexivity.
Qed.

(** Swapping the operands of a subtraction changes the sign only. *)
Lemma SFsub_swap_abs (a b : spec_float) :
  SFabs (SFsub prec emax a b) = SFabs (SFsub prec emax b a).
Proof.
  destruct a as [sa|sa| |sa ma ea], b as [sb|sb| |sb mb eb]; simpl;
    try reflexivity;
    try (destruct sa; reflexivity); try (destruct sb; reflexivity);
    try (destruct sa, sb; reflexivity).
  rewrite (Z.min_comm eb ea), <- binary_normalize_opp_abs.
  f_equal. f_equal. lia.
Qed.

(** A square depends on the magnitude only. *)
Lemma SFmul_square_abs (u : spec_float) :
  SFmul prec emax u u = SFmul prec emax (SFabs u) (SFabs u).
Proof. destruct u as [s|s| |s m e]; try reflexivity; now destruct s. Qed.

Lemma SFmul_square_swap (a b : spec_float) :
  SFmul prec emax (SFsub prec emax a b) (SFsub prec emax a b)
  = SFmul prec emax (SFsub prec emax b a) (SFsub prec emax b a).
Proof.
  rewrite (SFmul_square_abs (SFsub prec emax a b)),
    (SFmul_square_abs (SFsub prec emax b a)).
  now rewrite SFsub_swap_abs.
Qed.

Lemma SFadd_comm (a b : spec_float) :
  SFadd prec emax a b = SFadd prec emax b a.
Proof.
  destruct a as [sa|sa| |sa ma ea], b as [sb|sb| |sb mb eb]; simpl;
    try reflexivity; try (destruct sa, sb; reflexivity).
  rewrite (Z.min_comm eb ea). f_equal. lia.
Qed.

Lemma SFsqrt_not_negative (a : spec_float) :
  SFltb (SFsqrt prec emax a) (S754_zero false) = false.
Proof.
  destruct a as [s|s| |s m e]; simpl; try reflexivity.
  - now destruct s.
  - destruct s; [reflexivity|].
    destruct (SFsqrt_core_binary prec emax (Zpos m) e) as [[mz ez] lz].
    apply binary_round_aux_not_negative.
Qed.

End RoundingSign.

Lemma square_of_difference_swap (a b : float) :
  (a - b) * (a - b) = (b - a) * (b - a).
Proof.
  apply Prim2SF_inj. rewrite !mul_spec, !sub_spec.
  apply SFmul_square_swap.
Qed.

Lemma float_add_comm (a b : float) : a + b = b + a.
Proof. apply Prim2SF_inj. rewrite !add_spec. apply SFadd_comm. Qed.

Lemma sqrt_not_negative (a : float) : (sqrt a <? 0) = false.
Proof. rewrite ltb_spec, sqrt_spec. apply SFsqrt_not_negative. Qed.

(** Among positive finite numbers a smaller exponent means a smaller
    number: what exceeds the larger exceeds the smaller. *)
Lemma SFltb_lower_exponent (m1 m2 : positive) (e1 e2 : Z) (t : spec_float) :
  (e1 < e2)%Z ->
  SFltb (S754_finite false m2 e2) t = true ->
  SFltb (S754_finite false m1 e1) t = true.
Proof.
  intros He. unfold SFltb, SFcompare.
  destruct t as [s|s| |s m e]; try discriminate;
    destruct s; try discriminate; try reflexivity.
  destruct (Z.compare_spec e2 e) as [Heq | Hlt | Hgt]; try discriminate;
    intros _.
  - assert (Hc : (e1 ?= e)%Z = Lt) by (apply Z.compare_lt_iff; lia).
    now rewrite Hc.
  - assert (Hc : (e1 ?= e)%Z = Lt) by (apply Z.compare_lt_iff; lia).
    now rewrite Hc.
Qed.

(** The threshold for leaving a pan lies above the threshold for deciding
    to zoom: a spread over 64 is a spread over 24. *)
Lemma over_64_is_over_24 (t : float) : (64 <? t) = true -> (24 <? t) = true.
Proof.
  rewrite !ltb_spec.
  change (Prim2SF 64) with (S754_finite false 4503599627370496 (-46)).
  change (Prim2SF 24) with (S754_finite false 6755399441055744 (-48)).
  apply SFltb_lower_exponent. lia.
Qed.

(** X12. The distance of two pointers is never negative (it is zero,
    positive, infinite or NaN), and neither is the spread change
    [|currDistance - initDistance|] that the classifier compares with its
    thresholds. *)
Theorem pointer_distance_not_negative (p1 p2 : PointerEvent) (s : State) :
  (getPointerDistance p1 p2 <? 0) = false /\
  (abs (currDistanceBetweenFingers s - initDistanceBetweenFingers s) <? 0)
  = false.
Proof.
  split.
  - unfold getPointerDistance. apply sqrt_not_negative.
  - rewrite ltb_spec, abs_spec. unfold SFltb.
    now destruct (Prim2SF _) as [sg|sg| |sg m e].
Qed.

(** X13. The geometry of a pair does not depend on the order of its two
    pointers (the order in which the fingers landed): distance and centre
    are the same binary64 values either way. *)
Theorem pair_order_is_irrelevant (p1 p2 : PointerEvent) :
  getPointerDistance p1 p2 = getPointerDistance p2 p1 /\
  getPointerCenter p1 p2 = getPointerCenter p2 p1.
Proof.
  unfold getPointerDistance, getPointerCenter. split.
  - now rewrite (square_of_difference_swap (clientX p1) (clientX p2)),
      (square_of_difference_swap (clientY p1) (clientY p2)).
  - now rewrite (float_add_comm (clientX p1) (clientX p2)),
      (float_add_comm (clientY p1) (clientY p2)).
Qed.

Section Stability.

Context `{Host}.

(** X14. Classifying again on unchanged measurements changes nothing: the
    classification step is idempotent. In particular a session that the
    step has just moved from undecided to panning is not moved on to
    zooming by the same measurements. *)
Theorem updatePinchState_idempotent (s : State) :
  updatePinchState (updatePinchState s) = updatePinchState s.
Proof.
  unfold updatePinchState at 2 3.
  destruct (pinchState s) eqn:Hmode.
  - destruct (24 <? _) eqn:H24.
    + reflexivity.
    + destruct (16 <? _) eqn:H16.
      * unfold updatePinchState. simpl.
        destruct (64 <? _) eqn:H64; [|reflexivity].
        apply over_64_is_over_24 in H64. congruence.
      * unfold updatePinchState. now rewrite Hmode, H24, H16.
  - unfold updatePinchState. now rewrite Hmode.
  - destruct (64 <? _) eqn:H64.
    + reflexivity.
    + unfold updatePinchState. now rewrite Hmode, H64.
Qed.

End Stability.

(** ** Modifier keys *)

Section Modifiers.

Context `{Host}.

Lemma pinchInfo_carries (n : PinchName) (pt dl : VecLike) (e : MouseEvent) :
  carriesModifiers e (Dispatch (PinchInfo (pinchInfo n pt dl e))) = true.
Proof. simpl. now rewrite !Bool.eqb_reflx. Qed.

Lemma pinchInfo_meta (n : PinchName) (pt dl : VecLike) (e : MouseEvent) :
  metaImpliesCtrl (Dispatch (PinchInfo (pinchInfo n pt dl e))) = true.
Proof. simpl. now destruct (metaKey e). Qed.

Lemma frame_meta_implies_ctrl (s : State) (pending : list PinchEndCallback) :
  forallb metaImpliesCtrl (map (fun cb => runPinchEnd cb s) pending) = true.
Proof.
  induction pending as [|cb pending IH]; [reflexivity|].
  cbn [map forallb]. rewrite IH, andb_true_r.
  unfold runPinchEnd. apply pinchInfo_meta.
Qed.

(** X15. Every dispatched event carries the shift, alt and meta keys of the
    DOM event that caused it (for a [pinch_end], of the release), reports
    [ctrlKey] when either the meta or the control key was held, and takes
    [accelKey] from [isAccelKey]; so no dispatched event ever has the meta
    key without [ctrlKey]. *)
Theorem dispatched_events_carry_modifiers (editor : Editor)
  (e : PointerEvent) (we : WheelEvent) (s later : State) :
  forallb (carriesModifiers e) (snd (onPointerDown editor e s)) = true /\
  forallb (carriesModifiers e) (snd (onPointerMove editor e s)) = true /\
  forallb (carriesModifiers we) (snd (onWheel editor we s)) = true /\
  forallb (fun cb => carriesModifiers e (runPinchEnd cb later))
    (scheduled (snd (onPointerUp editor e s))) = true /\
  (forall (ev : DomEvent) (w : World),
      forallb metaImpliesCtrl (snd (step editor ev w)) = true).
Proof.
  split; [|split; [|split; [|split]]].
  - destruct (onPointerDown_effects editor e s) as [-> | (pt & dl & ->)];
      [reflexivity|].
    cbn [forallb]. rewrite andb_true_r. apply pinchInfo_carries.
  - destruct (onPointerMove_effects editor e s) as [-> | (pt & dl & ->)];
      [reflexivity|].
    cbn [forallb]. rewrite andb_true_r. apply pinchInfo_carries.
  - unfold onWheel. destruct (negb _); [reflexivity|].
    destruct (scrollsEditingShape editor); [reflexivity|].
    destruct (_ && _); [reflexivity|].
    simpl. now rewrite !Bool.eqb_reflx.
  - unfold onPointerUp. destruct (Nat.eqb _ 2); [|reflexivity].
    simpl scheduled. cbn [forallb]. rewrite andb_true_r.
    apply pinchInfo_carries.
  - intros ev w. destruct ev as [e'|e'|e'|e'|e'|]; simpl.
    + destruct (onPointerDown_effects editor e' (hook w))
        as [Hnone | (pt & dl & Hsome)];
        destruct (onPointerDown editor e' (hook w)) as [s' effects];
        simpl in *; subst effects; [reflexivity|].
      cbn [forallb]. rewrite andb_true_r. apply pinchInfo_meta.
    + destruct (onPointerMove_effects editor e' (hook w))
        as [Hnone | (pt & dl & Hsome)];
        destruct (onPointerMove editor e' (hook w)) as [s' effects];
        simpl in *; subst effects; [reflexivity|].
      cbn [forallb]. rewrite andb_true_r. apply pinchInfo_meta.
    + destruct (onPointerUp_effects editor e' (hook w))
        as [Hnone | (cb & Hsome)];
        destruct (onPointerUp editor e' (hook w)) as [s' effects];
        simpl in *; subst effects; reflexivity.
    + destruct (onPointerUp_effects editor e' (hook w))
        as [Hnone | (cb & Hsome)];
        destruct (onPointerUp editor e' (hook w)) as [s' effects];
        simpl in *; subst effects; reflexivity.
    + unfold onWheel. destruct (negb _); [reflexivity|].
      destruct (scrollsEditingShape editor); [reflexivity|].
      destruct (_ && _); [reflexivity|].
      simpl. now destruct (metaKey e').
    + apply frame_meta_implies_ctrl.
Qed.

End Modifiers.

(** ** Mounting and cleaning up *)

Section Mounting.

Variable run : nat.

Lemma foreign_not_registered (type : EventType) (handler : Handler)
  (ls : list EventListener) :
  foreign run ls = true -> existsb (sameListener type run handler) ls = false.
Proof.
  unfold foreign. induction ls as [|l ls IH]; simpl; [reflexivity|].
  intros Hls. apply andb_prop in Hls. destruct Hls as [Hl Hrest].
  apply negb_true_iff in Hl. unfold sameListener at 1.
  rewrite Hl, andb_false_r. simpl. now apply IH.
Qed.

Lemma foreign_remove (type : EventType) (handler : Handler)
  (ls rest : list EventListener) :
  foreign run ls = true ->
  removeListener type run handler (ls ++ rest)
  = ls ++ removeListener type run handler rest.
Proof.
  unfold foreign. induction ls as [|l ls IH]; simpl; [reflexivity|].
  intros Hls. apply andb_prop in Hls. destruct Hls as [Hl Hrest].
  apply negb_true_iff in Hl. unfold sameListener at 1.
  rewrite Hl, andb_false_r. simpl. now rewrite IH.
Qed.

Lemma foreign_filter (type : EventType) (ls : list EventListener) :
  foreign run ls = true ->
  filter (fun l => eventTypeEqb (listenerType l) type
                   && Nat.eqb (listenerRun l) run) ls = [].
Proof.
  unfold foreign. induction ls as [|l ls IH]; simpl; [reflexivity|].
  intros Hls. apply andb_prop in Hls. destruct Hls as [Hl Hrest].
  apply negb_true_iff in Hl. rewrite Hl, andb_false_r. now apply IH.
Qed.

Lemma mountEffect_listeners (c : Container) :
  foreign run (eventListeners c) = true ->
  mountEffect run (Some c)
  = Some {| touchAction := "none"%string;
            webkitUserSelect := "none"%string;
            eventListeners := eventListeners c ++ registered run |}.
Proof.
  intros Hforeign. unfold mountEffect, addEventListener. simpl.
  rewrite (foreign_not_registered _ _ _ Hforeign). simpl.
  rewrite existsb_app, (foreign_not_registered _ _ _ Hforeign). simpl.
  rewrite !existsb_app, (foreign_not_registered _ _ _ Hforeign). simpl.
  rewrite !existsb_app, (foreign_not_registered _ _ _ Hforeign). simpl.
  rewrite !existsb_app, (foreign_not_registered _ _ _ Hforeign). simpl.
  now rewrite <- !app_assoc.
Qed.

(** X16. Mounting on a container that holds no listener of this run sets
    [touchAction] and [webkitUserSelect] to "none" and registers five
    non-passive listeners after the existing ones; [pointerup] and
    [pointercancel] are answered by the same handler. The clean-up removes
    exactly these five, giving back the listener list as it was, and leaves
    the two style values at "none". Without a container the effect does
    nothing. *)
Theorem mount_then_cleanup (c : Container) :
  foreign run (eventListeners c) = true ->
  let mounted :=
    {| touchAction := "none"%string;
       webkitUserSelect := "none"%string;
       eventListeners := eventListeners c ++ registered run |} in
  mountEffect run (Some c) = Some mounted /\
  listenersFor pointerup run mounted = [HandlerPointerUp] /\
  listenersFor pointercancel run mounted = [HandlerPointerUp] /\
  cleanupEffect run (Some mounted)
  = Some {| touchAction := "none"%string;
            webkitUserSelect := "none"%string;
            eventListeners := eventListeners c |} /\
  mountEffect run None = None.
Proof.
  intros Hforeign mounted.
  split; [now apply mountEffect_listeners|].
  split; [|split; [|split; [|reflexivity]]].
  - unfold listenersFor. simpl.
    rewrite filter_app, (foreign_filter _ _ Hforeign). simpl.
    now rewrite Nat.eqb_refl.
  - unfold listenersFor. simpl.
    rewrite filter_app, (foreign_filter _ _ Hforeign). simpl.
    now rewrite Nat.eqb_refl.
  - unfold cleanupEffect, removeEventListener. simpl.
    rewrite (foreign_remove _ _ _ _ Hforeign). simpl.
    unfold sameListener at 1. simpl. rewrite Nat.eqb_refl. simpl.
    rewrite (foreign_remove _ _ _ _ Hforeign). simpl.
    unfold sameListener at 1. simpl. rewrite Nat.eqb_refl. simpl.
    rewrite (foreign_remove _ _ _ _ Hforeign). simpl.
    unfold sameListener at 1. simpl. rewrite Nat.eqb_refl. simpl.
    rewrite (foreign_remove _ _ _ _ Hforeign). simpl.
    unfold sameListener at 1. simpl. rewrite Nat.eqb_refl. simpl.
    rewrite (foreign_remove _ _ _ _ Hforeign). simpl.
    unfold sameListener at 1. simpl. rewrite Nat.eqb_refl. simpl.
    now rewrite app_nil_r.
Qed.

End Mounting.

(** X16 on a container that already has a wheel listener of run 7: run 3
    mounts and cleans up, and that listener is all that is left. *)
Lemma mount_then_cleanup_witness :
  exists mounted,
    mountEffect 3 (Some busyContainer) = Some mounted /\
    length (eventListeners mounted) = 6%nat /\
    cleanupEffect 3 (Some mounted)
    = Some {| touchAction := "none"%string;
              webkitUserSelect := "none"%string;
              eventListeners := eventListeners busyContainer |}.
Proof.
  destruct (mount_then_cleanup 3 busyContainer eq_refl)
    as (Hmount & _ & _ & Hcleanup & _).
  eexists. split; [exact Hmount|]. split; [reflexivity | exact Hcleanup].
Defined.

(** ** Releasing twice *)

Section DoubleRelease.

Context `{Host}.

(** X17. After any history, releasing the same pointer a second time never
    changes the pointer map, and unless exactly two pointers are stored at
    that moment it changes nothing at all and requests nothing. *)
Theorem second_release_is_idle (trace : list (Editor * DomEvent))
  (editor editor' : Editor) (e : PointerEvent) :
  let w1 := fst (step editor (PointerUpEv e) (fst (run trace initialWorld))) in
  activePointers (hook (fst (step editor' (PointerUpEv e) w1)))
  = activePointers (hook w1) /\
  (Nat.eqb (JsMap.size (activePointers (hook w1))) 2 = false ->
   step editor' (PointerUpEv e) w1 = (w1, [])).
Proof.
  intros w1.
  assert (Hd : distinctKeys (activePointers (hook (fst (run trace initialWorld))))
               = true).
  { pose proof (run_wellKeyed trace initialWorld eq_refl) as Hw.
    unfold wellKeyed in Hw. now apply andb_prop in Hw. }
  assert (Hgone : JsMap.has (pointerId e) (activePointers (hook w1)) = false).
  { subst w1. rewrite step_hook. simpl. rewrite onPointerUp_pointers.
    now apply has_delete_same. }
  split.
  - rewrite step_hook. simpl. rewrite onPointerUp_pointers.
    now apply delete_untracked.
  - intros Hsize. apply Nat.eqb_neq in Hsize. simpl.
    rewrite (onPointerUp_untracked_outside_session _ _ _ Hgone Hsize). simpl.
    rewrite app_nil_r. now destruct w1.
Qed.

End DoubleRelease.

(** X17 on the two-finger session: finger 1 is released twice; the second
    release finds one pointer stored and does nothing. *)
Lemma second_release_is_idle_witness :
  let trace :=
    [(plainEditor, PointerDownEv (finger 1 0 0));
     (plainEditor, PointerDownEv (finger 2 100 0))] in
  let w1 :=
    fst (step plainEditor (PointerUpEv (finger 1 0 0))
           (fst (run trace initialWorld))) in
  step plainEditor (PointerUpEv (finger 1 0 0)) w1 = (w1, []).
Proof.
  intros trace w1.
  apply (proj2 (@second_release_is_idle demoHost trace plainEditor plainEditor
                  (finger 1 0 0))).
  reflexivity.
Defined.
